(** * sort_images: a shallow embedding of [main.go]

    The program walks a source directory, keeps the files that the
    [filetype] library classifies as images, reads the capture date of each
    from its EXIF block, creates [<destination>/YYYY/MM/DD] and copies every
    image there.

    The Go code is a script over the operating system, so the embedding is a
    set of state-passing functions over a [World]: a directory tree with
    inode numbers, a byte store, the free space of the disk and the error
    stream.  [os.Exit] is the second component of what [main] returns.

    The tree has directories, regular files and device-like nodes, each with
    a read and a write permission; there are no symbolic links and no search
    permission, so [Lstat] on an entry that a directory lists never fails.
    Two paths may reach the same inode (hard links).  The [filetype] and
    [goexif] libraries are parameters ([Extern]). *)

From Stdlib Require Import List String Ascii ZArith Lia Bool Arith DecimalString.
From Stdlib.Strings Require Import Byte.
Import ListNotations.
Open Scope string_scope.
Open Scope list_scope.
Open Scope nat_scope.

Set Implicit Arguments.

(** ** Errors and results *)

(** The [error] values the program can meet.  The first group are the
    [syscall] errors behind [*os.PathError]; [SkipDir] is the sentinel of
    [path/filepath]; the two [CopyFile] errors are built by [fmt.Errorf] in
    [copyFile]; [ErrExif] stands for whatever [goexif] returns. *)
Inductive error : Type :=
| ENOENT
| ENOTDIR
| EISDIR
| EACCES
| ENOSPC
| EGETWD
| SkipDir
| ErrNonRegularSource (nm : string)
| ErrNonRegularDestination (nm : string)
| ErrExif (msg : string).

(** A Go pair [(value, error)] in which exactly one side is meaningful. *)
Inductive result (A : Type) : Type :=
| Ok (a : A)
| Err (e : error).
Arguments Ok {A} a.
Arguments Err {A} e.

Definition is_SkipDir (e : error) : bool :=
  match e with SkipDir => true | _ => false end.

(** [os.IsNotExist] *)
Definition os_IsNotExist (e : error) : bool :=
  match e with ENOENT => true | _ => false end.

(** ** Paths *)

(** A path in [filepath.Clean] normal form: whether it starts at the root,
    and its elements. *)
Record fpath : Type := mkPath { p_abs : bool; p_elems : list string }.

Definition slash : ascii := "/"%char.

(** [strings.Split(s, "/")] *)
Fixpoint split_slash (s : string) : list string :=
  match s with
  | EmptyString => [EmptyString]
  | String c s' =>
      if Ascii.eqb c slash then EmptyString :: split_slash s'
      else match split_slash s' with
           | e :: r => String c e :: r
           | [] => [String c EmptyString]
           end
  end.

Definition kept_elem (e : string) : bool :=
  negb (String.eqb e "" || String.eqb e ".").

(** The elements that [filepath.Clean] keeps of a slash-separated string:
    empty elements and [.] go.  ([..] is not resolved: the program joins only
    decimal fields and the name of a directory entry.) *)
Definition path_elems (s : string) : list string :=
  filter kept_elem (split_slash s).

(** [filepath.Join(p, s)] *)
Definition filepath_Join (p : fpath) (s : string) : fpath :=
  mkPath (p_abs p) (p_elems p ++ path_elems s).

(** [filepath.Join(dir, name)] for the name of a directory entry, which is
    one element by construction. *)
Definition path_child (p : fpath) (nm : string) : fpath :=
  mkPath (p_abs p) (p_elems p ++ [nm]).

(** [filepath.Base] *)
Definition filepath_Base (p : fpath) : string :=
  last (p_elems p) (if p_abs p then "/" else ".").

(** ** [fmt.Sprintf] for the verbs the program uses *)

Definition decimal (z : Z) : string :=
  NilZero.string_of_uint (N.to_uint (Z.to_N z)).

Fixpoint zeros (n : nat) : string :=
  match n with
  | O => ""
  | S n' => String "0"%char (zeros n')
  end.

Definition pad_zeros (width : nat) (s : string) : string :=
  (zeros (width - String.length s) ++ s)%string.

(** The verb [%0<width>d]: the sign comes first and counts in the width. *)
Definition fmt_0d (width : nat) (z : Z) : string :=
  if (z <? 0)%Z then ("-" ++ pad_zeros (width - 1) (decimal (- z)))%string
  else pad_zeros width (decimal z).

(** [fmt.Sprintf("%04d/%02d/%02d", y, m, d)] *)
Definition Sprintf_date (y m d : Z) : string :=
  (fmt_0d 4 y ++ "/" ++ fmt_0d 2 m ++ "/" ++ fmt_0d 2 d)%string.

(** [fmt.Sprintf("%04d/%02d/%02d/%s", y, m, d, name)] *)
Definition Sprintf_date_name (y m d : Z) (nm : string) : string :=
  (fmt_0d 4 y ++ "/" ++ fmt_0d 2 m ++ "/" ++ fmt_0d 2 d ++ "/" ++ nm)%string.

(** Reading a decimal string back, to say what a formatted field denotes. *)
Definition digit_value (c : ascii) : option Z :=
  let n := nat_of_ascii c in
  if ((48 <=? n) && (n <=? 57))%nat then Some (Z.of_nat (n - 48)) else None.

Fixpoint decimal_value_from (acc : Z) (s : string) : option Z :=
  match s with
  | EmptyString => Some acc
  | String c s' =>
      match digit_value c with
      | Some v => decimal_value_from (10 * acc + v)%Z s'
      | None => None
      end
  end.

Definition decimal_value (s : string) : option Z :=
  match s with
  | EmptyString => None
  | _ => decimal_value_from 0%Z s
  end.

(** ** The file tree *)

Record perm : Type := mkPerm { p_read : bool; p_write : bool }.

(** Mode [0755], as far as the owner is concerned. *)
Definition perm_0755 : perm := mkPerm true true.
(** Mode [0666] of [os.Create]. *)
Definition perm_0666 : perm := mkPerm true true.

(** What is not a directory is a regular file or something else that can be
    opened and read (a device node, say). *)
Inductive ftype : Type := Regular | Device.

(** A directory lists its entries in the order [readDirNames] returns them. *)
Inductive tree : Type :=
| File (ty : ftype) (ino : nat) (pm : perm)
| Dir (ino : nat) (pm : perm) (es : forest)
with forest : Type :=
| FNil
| FCons (nm : string) (t : tree) (rest : forest).

Scheme tree_forest_ind := Induction for tree Sort Prop
  with forest_tree_ind := Induction for forest Sort Prop.

Definition is_dir (t : tree) : bool :=
  match t with Dir _ _ _ => true | File _ _ _ => false end.

Definition is_regular (t : tree) : bool :=
  match t with File Regular _ _ => true | _ => false end.

Definition node_ino (t : tree) : nat :=
  match t with File _ i _ => i | Dir i _ _ => i end.

Definition node_perm (t : tree) : perm :=
  match t with File _ _ pm => pm | Dir _ pm _ => pm end.

Fixpoint find_entry (es : forest) (nm : string) : option tree :=
  match es with
  | FNil => None
  | FCons n t rest => if String.eqb n nm then Some t else find_entry rest nm
  end.

Fixpoint set_entry (es : forest) (nm : string) (c : tree) : forest :=
  match es with
  | FNil => FNil
  | FCons n t rest =>
      if String.eqb n nm then FCons n c rest else FCons n t (set_entry rest nm c)
  end.

Fixpoint add_entry (es : forest) (nm : string) (c : tree) : forest :=
  match es with
  | FNil => FCons nm c FNil
  | FCons n t rest => FCons n t (add_entry rest nm c)
  end.

(** Path resolution from a node. *)
Fixpoint lookup (t : tree) (p : list string) : result tree :=
  match p with
  | [] => Ok t
  | nm :: p' =>
      match t with
      | File _ _ _ => Err ENOTDIR
      | Dir _ _ es =>
          match find_entry es nm with
          | Some c => lookup c p'
          | None => Err ENOENT
          end
      end
  end.

(** The largest inode number in use; a new node takes the next one. *)
Fixpoint max_ino (t : tree) : nat :=
  match t with
  | File _ i _ => i
  | Dir i _ es => Nat.max i (max_ino_forest es)
  end
with max_ino_forest (es : forest) : nat :=
  match es with
  | FNil => 0
  | FCons _ t rest => Nat.max (max_ino t) (max_ino_forest rest)
  end.

(** Linking a new regular file [ino] at [p]; the parent must exist, be a
    directory, be writable and have no entry of that name. *)
Fixpoint add_file (t : tree) (p : list string) (ino : nat) : result tree :=
  match t with
  | File _ _ _ => Err ENOTDIR
  | Dir i pm es =>
      match p with
      | [] => Err EISDIR
      | [nm] =>
          match find_entry es nm with
          | Some _ => Err EISDIR
          | None =>
              if p_write pm
              then Ok (Dir i pm (add_entry es nm (File Regular ino perm_0666)))
              else Err EACCES
          end
      | nm :: p' =>
          match find_entry es nm with
          | None => Err ENOENT
          | Some c =>
              match add_file c p' ino with
              | Ok c' => Ok (Dir i pm (set_entry es nm c'))
              | Err e => Err e
              end
          end
      end
  end.

(** [mkdir -p] from a node: the directories made before a failure stay. *)
Fixpoint mkdir_all (t : tree) (p : list string) (ino : nat) : tree * option error :=
  match p with
  | [] => if is_dir t then (t, None) else (t, Some ENOTDIR)
  | nm :: p' =>
      match t with
      | File _ _ _ => (t, Some ENOTDIR)
      | Dir i pm es =>
          match find_entry es nm with
          | Some c =>
              let '(c', err) := mkdir_all c p' ino in
              (Dir i pm (set_entry es nm c'), err)
          | None =>
              if p_write pm
              then let '(c', err) := mkdir_all (Dir ino perm_0755 FNil) p' (S ino) in
                   (Dir i pm (add_entry es nm c'), err)
              else (t, Some EACCES)
          end
      end
  end.

(** ** The world *)

(** What the program writes to [os.Stderr], one constructor per
    [fmt.Fprintf] of [main] ([flag.PrintDefaults] included). *)
Inductive message : Type :=
| MsgMissingFlag (req : string)
| MsgPrintDefaults
| MsgOpenSource (src : fpath) (e : error)
| MsgStatSource (src : fpath) (e : error)
| MsgNotDirectory (src : fpath)
| MsgWalk (src : fpath) (e : error)
| MsgMkdir (newPath : fpath) (e : error)
| MsgCopy (src dst : fpath) (e : error).

(** [root] is the tree at [/], [store] the bytes behind each inode, [cwd]
    the working directory, [getwd_ok] whether [os.Getwd] can name it, [free]
    the bytes left on the disk. *)
Record World : Type := mkWorld {
  root : tree;
  store : nat -> list byte;
  cwd : list string;
  getwd_ok : bool;
  free : nat;
  stderr : list message
}.

Definition set_root (w : World) (t : tree) : World :=
  mkWorld t (store w) (cwd w) (getwd_ok w) (free w) (stderr w).

Definition Fprint_Stderr (w : World) (m : message) : World :=
  mkWorld (root w) (store w) (cwd w) (getwd_ok w) (free w) (stderr w ++ [m]).

Definition upd (st : nat -> list byte) (i : nat) (v : list byte) : nat -> list byte :=
  fun j => if Nat.eqb j i then v else st j.

(** A new, empty inode [i] in the tree [t]. *)
Definition link_new (w : World) (t : tree) (i : nat) : World :=
  mkWorld t (upd (store w) i []) (cwd w) (getwd_ok w) (free w) (stderr w).

(** [O_TRUNC]: the bytes of the inode go back to the disk. *)
Definition truncate (w : World) (i : nat) : World :=
  mkWorld (root w) (upd (store w) i []) (cwd w) (getwd_ok w)
          (free w + List.length (store w i)) (stderr w).

Definition overwrite (old new : list byte) : list byte :=
  new ++ skipn (List.length new) old.

(** Writing [data] at offset 0 of inode [i]. *)
Definition write_at (w : World) (i : nat) (data : list byte) : World :=
  mkWorld (root w) (upd (store w) i (overwrite (store w i) data)) (cwd w)
          (getwd_ok w) (free w - List.length data) (stderr w).

Definition resolve (w : World) (p : fpath) : list string :=
  if p_abs p then p_elems p else cwd w ++ p_elems p.

(** ** Package [os] *)

Record FileInfo : Type := mkFileInfo {
  fi_Name : string;
  fi_IsDir : bool;
  fi_IsRegular : bool;
  fi_ino : nat
}.

(** The [nil] [FileInfo] that [Walk] hands over together with an error. *)
Definition nil_FileInfo : FileInfo := mkFileInfo "" false false 0.

Definition info_of (nm : string) (t : tree) : FileInfo :=
  mkFileInfo nm (is_dir t) (is_regular t) (node_ino t).

(** An open [*os.File]. *)
Record os_File : Type := mkFile { f_info : FileInfo }.

Definition f_ino (f : os_File) : nat := fi_ino (f_info f).

Definition os_SameFile (a b : FileInfo) : bool := Nat.eqb (fi_ino a) (fi_ino b).

Definition os_Stat (w : World) (p : fpath) : result FileInfo :=
  match lookup (root w) (resolve w p) with
  | Ok t => Ok (info_of (filepath_Base p) t)
  | Err e => Err e
  end.

(** There are no symbolic links in the tree, so [Lstat] is [Stat]. *)
Definition os_Lstat (w : World) (p : fpath) : result FileInfo := os_Stat w p.

Definition os_Open (w : World) (p : fpath) : result os_File :=
  match lookup (root w) (resolve w p) with
  | Ok t =>
      if p_read (node_perm t) then Ok (mkFile (info_of (filepath_Base p) t))
      else Err EACCES
  | Err e => Err e
  end.

Definition file_Stat (w : World) (f : os_File) : result FileInfo := Ok (f_info f).

(** Closing a file changes nothing that the program can see; the deferred
    [Close] calls are left out of the functions below. *)
Definition file_Close (w : World) (f : os_File) : option error := None.

Definition file_Sync (w : World) (f : os_File) : World * option error := (w, None).

(** All the bytes a reader gets from [f]. *)
Definition file_data (w : World) (f : os_File) : result (list byte) :=
  if fi_IsDir (f_info f) then Err EISDIR else Ok (store w (f_ino f)).

(** [f.Read(buf)] at offset 0: the buffer after the call, and the error. *)
Definition file_Read (w : World) (f : os_File) (buf : list byte)
  : list byte * option error :=
  match file_data w f with
  | Err e => (buf, Some e)
  | Ok data => (overwrite buf (firstn (List.length buf) data), None)
  end.

(** [make([]byte, n)] *)
Definition make_bytes (n : nat) : list byte := repeat x00 n.

(** [os.Create]: open for writing, create if missing, truncate. *)
Definition os_Create (w : World) (p : fpath) : World * result os_File :=
  let q := resolve w p in
  match lookup (root w) q with
  | Ok t =>
      if is_dir t then (w, Err EISDIR)
      else if p_write (node_perm t)
      then ((if is_regular t then truncate w (node_ino t) else w),
            Ok (mkFile (info_of (filepath_Base p) t)))
      else (w, Err EACCES)
  | Err e =>
      if os_IsNotExist e
      then let i := S (max_ino (root w)) in
           match add_file (root w) q i with
           | Ok t' =>
               (link_new w t' i, Ok (mkFile (mkFileInfo (filepath_Base p) false true i)))
           | Err e' => (w, Err e')
           end
      else (w, Err e)
  end.

(** [io.Copy(dst, src)]: what fits on the disk is written; the rest is
    [ENOSPC]. *)
Definition io_Copy (w : World) (dst src : os_File) : World * (nat * option error) :=
  match file_data w src with
  | Err e => (w, (0, Some e))
  | Ok data =>
      let n := Nat.min (List.length data) (free w) in
      (write_at w (f_ino dst) (firstn n data),
       (n, if n <? List.length data then Some ENOSPC else None))
  end.

Definition os_MkdirAll (w : World) (p : fpath) : World * option error :=
  let '(t', err) := mkdir_all (root w) (resolve w p) (S (max_ino (root w))) in
  (set_root w t', err).

(** ** Package [path/filepath] *)

Definition filepath_Abs (w : World) (p : fpath) : result fpath :=
  if p_abs p then Ok p
  else if getwd_ok w then Ok (mkPath true (cwd w ++ p_elems p))
  else Err EGETWD.

Section Walk.
Variable S' : Type.
(** A [WalkFunc] that updates the variables it closes over. *)
Variable walkFn : fpath -> FileInfo -> option error -> S' -> S' * option error.

(** [filepath.walk]: the directory is handed to [walkFn] together with the
    error of reading it; then its entries, in order. *)
Fixpoint walk (t : tree) (p : fpath) (nm : string) (s : S') : S' * option error :=
  match t with
  | File _ _ _ => walkFn p (info_of nm t) None s
  | Dir _ pm es =>
      let err := if p_read pm then None else Some EACCES in
      let '(s1, err1) := walkFn p (info_of nm t) err s in
      match err, err1 with
      | None, None => walk_names es p s1
      | _, _ => (s1, err1)
      end
  end
with walk_names (es : forest) (p : fpath) (s : S') : S' * option error :=
  match es with
  | FNil => (s, None)
  | FCons nm c rest =>
      let filename := path_child p nm in
      let '(s1, err) := walk c filename nm s in
      match err with
      | None => walk_names rest p s1
      | Some e =>
          if negb (is_dir c) || negb (is_SkipDir e) then (s1, Some e)
          else walk_names rest p s1
      end
  end.

Definition filepath_Walk (w : World) (p : fpath) (s : S') : S' * option error :=
  let '(s1, err) :=
    match os_Lstat w p, lookup (root w) (resolve w p) with
    | Ok info, Ok t => walk t p (fi_Name info) s
    | Err e, _ | _, Err e => walkFn p nil_FileInfo (Some e) s
    end in
  match err with
  | Some e => if is_SkipDir e then (s1, None) else (s1, err)
  | None => (s1, None)
  end.
End Walk.

(** ** The two libraries outside the repository *)

(** [time.Time], as far as [getDate] reads it. *)
Record Time : Type := mkTime { Year : Z; Month : Z; Day : Z }.

(** [filetype.IsImage] decides on the sniffed header; [exif.Decode] parses
    the bytes of a file and [DateTime] reads the capture time of the parsed
    block.  The program is verified for every such triple. *)
Class Extern : Type := {
  filetype_IsImage : list byte -> bool;
  Exif : Type;
  exif_Decode : list byte -> result Exif;
  Exif_DateTime : Exif -> result Time
}.

(** ** The program *)

(** [type Image struct] *)
Record Image : Type := mkImage {
  name : string;
  path : fpath;
  year : Z;
  month : Z;
  day : Z
}.

(** The command line after [flag.Parse]: a flag that was not given is
    [None], and [flag.Visit] sees the others. *)
Record Flags : Type := mkFlags {
  flag_source : option fpath;
  flag_destination : option fpath;
  flag_dry_run : option bool
}.

(** Defaults [./] and the empty string: both are the working directory. *)
Definition sourceFlag (fl : Flags) : fpath :=
  match flag_source fl with Some p => p | None => mkPath false [] end.

Definition destFlag (fl : Flags) : fpath :=
  match flag_destination fl with Some p => p | None => mkPath false [] end.

Definition dryRunFlag (fl : Flags) : bool :=
  match flag_dry_run fl with Some b => b | None => true end.

Definition is_some {A : Type} (o : option A) : bool :=
  match o with Some _ => true | None => false end.

(** The map [seen] that [flag.Visit] fills. *)
Definition seen (fl : Flags) (nm : string) : bool :=
  if String.eqb nm "source" then is_some (flag_source fl)
  else if String.eqb nm "destination" then is_some (flag_destination fl)
  else if String.eqb nm "dry-run" then is_some (flag_dry_run fl)
  else false.

Definition required : list string := ["destination"].

Definition err_of {A : Type} (r : result A) : option error :=
  match r with Ok _ => None | Err e => Some e end.

(** [os.IsNotExist(err)] on a possibly [nil] error. *)
Definition IsNotExist (err : option error) : bool :=
  match err with Some e => os_IsNotExist e | None => false end.

Section Program.
Context {X : Extern}.

(** [func getDate(image *Image) error]: the image after the call, and the
    error. *)
Definition getDate (w : World) (image : Image) : Image * option error :=
  match os_Open w (path image) with
  | Err err => (image, Some err)
  | Ok f =>
      match file_data w f with
      | Err err => (image, Some err)
      | Ok bytes =>
          match exif_Decode bytes with
          | Err err => (image, Some err)
          | Ok x =>
              match Exif_DateTime x with
              | Err err => (image, Some err)
              | Ok date =>
                  (mkImage (name image) (path image)
                           (Year date) (Month date) (Day date), None)
              end
          end
      end
  end.

(** The closure that [getImages] passes to [filepath.Walk]; it appends to
    [images]. *)
Definition getImages_walkFn (w : World) (p : fpath) (info : FileInfo)
           (err : option error) (images : list Image)
  : list Image * option error :=
  match err with
  | Some e => (images, Some e)
  | None =>
      if fi_IsDir info then (images, None)
      else
        match os_Open w p with
        | Err e => (images, Some e)
        | Ok file =>
            let head := make_bytes 261 in
            let head := fst (file_Read w file head) in
            if filetype_IsImage head then
              match filepath_Abs w p with
              | Err e => (images, Some e)
              | Ok absPath =>
                  (images ++ [mkImage (fi_Name info) absPath 0 0 0], None)
              end
            else (images, None)
        end
  end.

(** [func getImages(path string) ([]Image, error)] *)
Definition getImages (w : World) (p : fpath) : list Image * option error :=
  let '(images, err) := filepath_Walk (getImages_walkFn w) w p [] in
  match err with
  | Some e => ([], Some e)
  | None => (images, None)
  end.

(** [func copyFileContents(src, dst string) error].  The deferred closure
    assigns to [err] after the result was already evaluated, so the error
    of [out.Close] never reaches the caller. *)
Definition copyFileContents (w : World) (src dst : fpath) : World * option error :=
  match os_Open w src with
  | Err err => (w, Some err)
  | Ok in_ =>
      let '(w1, r) := os_Create w dst in
      match r with
      | Err err => (w1, Some err)
      | Ok out =>
          let '(w2, (_, err)) := io_Copy w1 out in_ in
          match err with
          | Some e => (w2, Some e)
          | None => file_Sync w2 out
          end
      end
  end.

(** [func copyFile(src, dst string) error] *)
Definition copyFile (w : World) (src dst : fpath) : World * option error :=
  match os_Stat w src with
  | Err err => (w, Some err)
  | Ok sfi =>
      if negb (fi_IsRegular sfi)
      then (w, Some (ErrNonRegularSource (fi_Name sfi)))
      else
        match os_Stat w dst with
        | Err err =>
            if negb (os_IsNotExist err) then (w, Some err)
            else copyFileContents w src dst
        | Ok dfi =>
            if negb (fi_IsRegular dfi)
            then (w, Some (ErrNonRegularDestination (fi_Name dfi)))
            else if os_SameFile sfi dfi then (w, None)
            else copyFileContents w src dst
        end
  end.

(** The loop over [required] in [main]: [Some 2] is [os.Exit(2)]. *)
Fixpoint main_required (fl : Flags) (reqs : list string) (w : World)
  : World * option Z :=
  match reqs with
  | [] => (w, None)
  | req :: rest =>
      if negb (seen fl req)
      then (Fprint_Stderr (Fprint_Stderr w (MsgMissingFlag req)) MsgPrintDefaults,
            Some 2%Z)
      else main_required fl rest w
  end.

(** "Find out when each image is taken" *)
Fixpoint main_dates (w : World) (images : list Image) : list Image :=
  match images with
  | [] => []
  | image :: rest =>
      let '(image', err) := getDate w image in
      match err with
      | Some _ => image' :: main_dates w rest
      | None => image' :: main_dates w rest
      end
  end.

(** "Create folder structure": [Some 1] is [os.Exit(1)]. *)
Fixpoint main_folders (dest : fpath) (images : list Image) (w : World)
  : World * option Z :=
  match images with
  | [] => (w, None)
  | image :: rest =>
      let newPath :=
        filepath_Join dest (Sprintf_date (year image) (month image) (day image)) in
      if IsNotExist (err_of (os_Stat w newPath)) then
        let '(w1, err) := os_MkdirAll w newPath in
        match err with
        | Some e => (Fprint_Stderr w1 (MsgMkdir newPath e), Some 1%Z)
        | None => main_folders dest rest w1
        end
      else main_folders dest rest w
  end.

(** "Copy images to date folders" *)
Fixpoint main_copy (dest : fpath) (images : list Image) (w : World) : World :=
  match images with
  | [] => w
  | image :: rest =>
      let newPath :=
        filepath_Join dest
          (Sprintf_date_name (year image) (month image) (day image) (name image)) in
      let '(w1, err) := copyFile w (path image) newPath in
      match err with
      | Some e =>
          main_copy dest rest (Fprint_Stderr w1 (MsgCopy (path image) newPath e))
      | None => main_copy dest rest w1
      end
  end.

(** [func main()]: the world at the end and the exit status. *)
Definition main (fl : Flags) (w : World) : World * Z :=
  match main_required fl required w with
  | (w0, Some code) => (w0, code)
  | (w0, None) =>
      match os_Open w0 (sourceFlag fl) with
      | Err err => (Fprint_Stderr w0 (MsgOpenSource (sourceFlag fl) err), 1%Z)
      | Ok file =>
          match file_Stat w0 file with
          | Err err => (Fprint_Stderr w0 (MsgStatSource (sourceFlag fl) err), 2%Z)
          | Ok fi =>
              if negb (fi_IsDir fi)
              then (Fprint_Stderr w0 (MsgNotDirectory (sourceFlag fl)), 2%Z)
              else
                let '(images, err) := getImages w0 (sourceFlag fl) in
                let w1 := match err with
                          | Some e => Fprint_Stderr w0 (MsgWalk (sourceFlag fl) e)
                          | None => w0
                          end in
                let images := main_dates w1 images in
                match main_folders (destFlag fl) images w1 with
                | (w2, Some code) => (w2, code)
                | (w2, None) => (main_copy (destFlag fl) images w2, 0%Z)
                end
          end
      end
  end.
End Program.

(** ** The notions of the statements *)

(** The non-directory entries below a node in the order [Walk] meets them,
    each with the path [Walk] gives it, its name and its node. *)
Fixpoint entries_under (t : tree) (p : fpath) (nm : string)
  : list (fpath * string * tree) :=
  match t with
  | File _ _ _ => [(p, nm, t)]
  | Dir _ _ es => entries_in es p
  end
with entries_in (es : forest) (p : fpath) : list (fpath * string * tree) :=
  match es with
  | FNil => []
  | FCons nm c rest => entries_under c (path_child p nm) nm ++ entries_in rest p
  end.

(** No directory lists a name twice. *)
Fixpoint distinct_names (t : tree) : bool :=
  match t with
  | File _ _ _ => true
  | Dir _ _ es => distinct_in es
  end
with distinct_in (es : forest) : bool :=
  match es with
  | FNil => true
  | FCons nm c rest =>
      negb (is_some (find_entry rest nm)) && distinct_names c && distinct_in rest
  end.

(** [c] is listed under the name [nm]. *)
Fixpoint member (nm : string) (c : tree) (es : forest) : Prop :=
  match es with
  | FNil => False
  | FCons n t rest => (n = nm /\ t = c) \/ member nm c rest
  end.

(** The 261 bytes that [getImages] sniffs of an entry: its first bytes, and
    zeros after them when it is shorter. *)
Definition sniffed (w : World) (t : tree) : list byte :=
  overwrite (make_bytes 261) (firstn 261 (store w (node_ino t))).

Definition image_entry {X : Extern} (w : World) (e : fpath * string * tree) : bool :=
  filetype_IsImage (sniffed w (snd e)).

(** The record that the enumerator makes of an entry. *)
Definition record_of (w : World) (e : fpath * string * tree) : Image :=
  mkImage (snd (fst e)) (mkPath true (resolve w (fst (fst e)))) 0 0 0.

(** The records of the image entries of a listing. *)
Definition listed {X : Extern} (w : World) (es : list (fpath * string * tree))
  : list Image :=
  map (record_of w) (filter (image_entry w) es).

(** The bytes of the regular file at a path. *)
Definition contents (w : World) (p : fpath) : option (list byte) :=
  match lookup (root w) (resolve w p) with
  | Ok (File Regular i _) => Some (store w i)
  | _ => None
  end.

Definition is_directory (w : World) (p : fpath) : bool :=
  match lookup (root w) (resolve w p) with
  | Ok t => is_dir t
  | Err _ => false
  end.

(** A record as the enumerator makes it: no date yet. *)
Definition undated (im : Image) : Prop :=
  year im = 0%Z /\ month im = 0%Z /\ day im = 0%Z.

(** A capture date as [goexif] parses it from [2006:01:02 15:04:05]. *)
Definition valid_date (y m d : Z) : Prop :=
  (0 <= y <= 9999 /\ 1 <= m <= 12 /\ 1 <= d <= 31)%Z.

(** A name a directory entry can have: one element, not empty, not [.]. *)
Definition entry_name (nm : string) : Prop :=
  split_slash nm = [nm] /\ kept_elem nm = true.

Definition entry_nameb (nm : string) : bool :=
  match split_slash nm with
  | [e] => String.eqb e nm && kept_elem nm
  | _ => false
  end.

(** A field of the date directory: [width] decimal digits that read [z]. *)
Definition date_field (width : nat) (z : Z) (s : string) : Prop :=
  String.length s = width /\ decimal_value s = Some z /\ entry_name s.

Definition date_fieldb (width : nat) (z : Z) (s : string) : bool :=
  Nat.eqb (String.length s) width
  && match decimal_value s with Some v => Z.eqb v z | None => false end
  && entry_nameb s.

(** What [main] has when it reaches "Create folder structure": the records
    after date resolution and the world; [None] when it exited before. *)
Definition main_enumerate {X : Extern} (fl : Flags) (w : World)
  : option (list Image * World) :=
  if negb (is_some (flag_destination fl)) then None
  else match os_Open w (sourceFlag fl) with
       | Err _ => None
       | Ok file =>
           if negb (fi_IsDir (f_info file)) then None
           else
             let '(images, err) := getImages w (sourceFlag fl) in
             let w1 := match err with
                       | Some e => Fprint_Stderr w (MsgWalk (sourceFlag fl) e)
                       | None => w
                       end in
             Some (main_dates w1 images, w1)
       end.

(** ** A stand-in for the two libraries, for concrete runs *)

Module Demo.

Definition is_jpeg (head : list byte) : bool :=
  match head with
  | a :: b :: c :: _ => Byte.eqb a xff && Byte.eqb b xd8 && Byte.eqb c xff
  | _ => false
  end.

Definition byteZ (b : byte) : Z := Z.of_N (Byte.to_N b).

(** A file with an EXIF block is the JPEG signature, the marker [E1] and
    the block; the block holds century, year, month and day in its first
    four bytes when it has a date. *)
Definition decode (bytes : list byte) : result (list byte) :=
  match bytes with
  | a :: b :: c :: m :: block =>
      if is_jpeg [a; b; c] && Byte.eqb m xe1 then Ok block
      else Err (ErrExif "no exif block")
  | _ => Err (ErrExif "no exif block")
  end.

Definition date_time (block : list byte) : result Time :=
  match block with
  | c :: y :: m :: d :: _ => Ok (mkTime (100 * byteZ c + byteZ y) (byteZ m) (byteZ d))
  | _ => Err (ErrExif "no date")
  end.

#[export] Instance extern : Extern :=
  {| filetype_IsImage := is_jpeg;
     Exif := list byte;
     exif_Decode := decode;
     Exif_DateTime := date_time |}.

Definition rw : perm := mkPerm true true.
Definition ro : perm := mkPerm true false.
Definition locked : perm := mkPerm false false.

(** A JPEG taken on 2021-06-15, a second one of the same day with other
    pixels, a JPEG without a date, and a text file. *)
Definition jpeg_a : list byte := [xff; xd8; xff; xe1; x14; x15; x06; x0f; x01; x02].
Definition jpeg_b : list byte := [xff; xd8; xff; xe1; x14; x15; x06; x0f; x09].
Definition jpeg_plain : list byte := [xff; xd8; xff; xe0; x00].
Definition text : list byte := [x68; x69].

Definition abs (p : list string) : fpath := mkPath true p.

Definition flags (src dst : list string) : Flags :=
  mkFlags (Some (abs src)) (Some (abs dst)) None.

Definition world (t : tree) (st : nat -> list byte) (space : nat) : World :=
  mkWorld t st [] true space [].

(** [/in/a/x.jpg] and [/in/b/x.jpg] are the two dated JPEGs; [/out] is
    empty. *)
Definition twins_tree : tree :=
  Dir 1 rw
    (FCons "in" (Dir 2 rw
       (FCons "a" (Dir 3 rw (FCons "x.jpg" (File Regular 4 rw) FNil))
       (FCons "b" (Dir 5 rw (FCons "x.jpg" (File Regular 6 rw) FNil))
        FNil)))
    (FCons "out" (Dir 7 rw FNil) FNil)).

Definition twins_store (i : nat) : list byte :=
  match i with 4 => jpeg_a | 6 => jpeg_b | _ => [] end.

Definition twins : World := world twins_tree twins_store 1000.

(** One dated JPEG [/in/x.jpg]; the disk of [full_disk] has room for five
    bytes. *)
Definition single_tree : tree :=
  Dir 1 rw
    (FCons "in" (Dir 2 rw (FCons "x.jpg" (File Regular 3 rw) FNil))
    (FCons "out" (Dir 4 rw FNil) FNil)).

Definition single_store (i : nat) : list byte :=
  match i with 3 => jpeg_a | _ => [] end.

Definition full_disk : World := world single_tree single_store 5.
Definition single : World := world single_tree single_store 1000.


(** [/in] holds a JPEG, then a file that cannot be opened. *)
Definition locked_tree : tree :=
  Dir 1 rw
    (FCons "in" (Dir 2 rw
       (FCons "a.jpg" (File Regular 3 rw)
       (FCons "b.jpg" (File Regular 4 locked) FNil)))
    (FCons "out" (Dir 5 rw FNil) FNil)).

Definition locked_store (i : nat) : list byte :=
  match i with 3 => jpeg_a | 4 => jpeg_b | _ => [] end.

Definition locked_world : World := world locked_tree locked_store 1000.

(** [/in] holds a device node whose bytes start like a JPEG. *)
Definition device_tree : tree :=
  Dir 1 rw
    (FCons "in" (Dir 2 rw (FCons "cam0" (File Device 3 rw) FNil))
    (FCons "out" (Dir 4 rw FNil) FNil)).

Definition device_world : World := world device_tree single_store 1000.

(** [/in] holds a text file called [notes.jpg] and a JPEG without a date
    called [scan.txt]; [/out] is read-only in [sealed]. *)
Definition mixed_tree (out : perm) : tree :=
  Dir 1 rw
    (FCons "in" (Dir 2 rw
       (FCons "notes.jpg" (File Regular 3 rw)
       (FCons "scan.txt" (File Regular 4 rw) FNil)))
    (FCons "out" (Dir 5 out FNil) FNil)).

Definition mixed_store (i : nat) : list byte :=
  match i with 3 => text | 4 => jpeg_plain | _ => [] end.

Definition mixed : World := world (mixed_tree rw) mixed_store 1000.
Definition sealed : World := world (mixed_tree ro) mixed_store 1000.

(** [/secret] is a regular file that cannot be opened. *)
Definition secret_tree : tree :=
  Dir 1 rw (FCons "secret" (File Regular 2 locked) FNil).

Definition secret : World := world secret_tree (fun _ => text) 1000.

(** The command line [-source /in -destination /out], and the records
    and paths of the runs below. *)
Definition fl : Flags := flags ["in"] ["out"].
Definition out_x : fpath := abs ["out"; "2021"; "06"; "15"; "x.jpg"].
Definition x_dated : Image := mkImage "x.jpg" (abs ["in"; "x.jpg"]) 2021 6 15.
Definition a_dated : Image := mkImage "x.jpg" (abs ["in"; "a"; "x.jpg"]) 2021 6 15.
Definition b_dated : Image := mkImage "x.jpg" (abs ["in"; "b"; "x.jpg"]) 2021 6 15.
Definition a_found : Image := mkImage "a.jpg" (abs ["in"; "a.jpg"]) 0 0 0.
Definition cam0 : Image := mkImage "cam0" (abs ["in"; "cam0"]) 0 0 0.
Definition scan : Image := mkImage "scan.txt" (abs ["in"; "scan.txt"]) 0 0 0.

(** The world after "Create folder structure". *)
Definition placed (w : World) (images : list Image) : World :=
  fst (main_folders (destFlag fl) images w).

End Demo.

(** ** Notions for the properties beyond the ten statements *)

(** Two nodes of the same kind, inode and permissions. *)
Definition same_node (c c' : tree) : Prop :=
  is_dir c' = is_dir c /\ is_regular c' = is_regular c /\
  node_ino c' = node_ino c /\ node_perm c' = node_perm c.

(** [t'] has all that [t] has: a path that reaches a node of [t] reaches a
    node of the same kind, inode and permissions of [t']. *)
Definition keeps (t t' : tree) : Prop :=
  forall (q : list string) (c : tree),
    lookup t q = Ok c -> exists c', lookup t' q = Ok c' /\ same_node c c'.

(** [w'] comes from [w] by making directories, linking files, writing
    bytes and printing: nothing was removed, moved or retyped, the working
    directory is the same, and the error stream has grown at its end. *)
Definition grows (w w' : World) : Prop :=
  cwd w' = cwd w /\ getwd_ok w' = getwd_ok w /\
  keeps (root w) (root w') /\
  exists msgs, stderr w' = stderr w ++ msgs.

(** The inode that a copy to [dst] writes: the one at [dst] when there is
    one, the next free one otherwise. *)
Definition dst_ino (w : World) (dst : fpath) : nat :=
  match lookup (root w) (resolve w dst) with
  | Ok t => node_ino t
  | Err _ => S (max_ino (root w))
  end.

(** Every node can be opened for reading. *)
Fixpoint all_readable (t : tree) : bool :=
  match t with
  | File _ _ pm => p_read pm
  | Dir _ pm es => p_read pm && all_readable_in es
  end
with all_readable_in (es : forest) : bool :=
  match es with
  | FNil => true
  | FCons _ c rest => all_readable c && all_readable_in rest
  end.

(** The directory and the file of a record under a destination, as the two
    loops of [main] compute them. *)
Definition date_dir (dest : fpath) (image : Image) : fpath :=
  filepath_Join dest (Sprintf_date (year image) (month image) (day image)).

Definition date_file (dest : fpath) (image : Image) : fpath :=
  filepath_Join dest
    (Sprintf_date_name (year image) (month image) (day image) (name image)).

(** [/in] holds two text files, one of them called [notes.jpg], and no
    image; [/out] is empty. *)
Module Plain.
Definition files : tree :=
  Dir 1 Demo.rw
    (FCons "in" (Dir 2 Demo.rw
       (FCons "notes.jpg" (File Regular 3 Demo.rw)
       (FCons "sub" (Dir 4 Demo.rw (FCons "readme" (File Regular 5 Demo.rw) FNil))
        FNil)))
    (FCons "out" (Dir 6 Demo.rw FNil) FNil)).

Definition world : World := Demo.world files (fun _ => Demo.text) 1000.

(** A record of another day. *)
Definition y_dated : Image :=
  mkImage "y.jpg" (Demo.abs ["in"; "y.jpg"]) 2020 1 2.
End Plain.

(** [/in] holds a JPEG without a date; [/out/0000] is a regular file. *)
Module Blocked.
Definition files : tree :=
  Dir 1 Demo.rw
    (FCons "in" (Dir 2 Demo.rw (FCons "scan.txt" (File Regular 3 Demo.rw) FNil))
    (FCons "out" (Dir 4 Demo.rw (FCons "0000" (File Regular 5 Demo.rw) FNil))
     FNil)).

Definition bytes (i : nat) : list byte :=
  match i with 3 => Demo.jpeg_plain | _ => Demo.text end.

Definition world : World := Demo.world files bytes 1000.
End Blocked.

Unset Implicit Arguments.

(** Evaluating a closed statement. *)
Ltac run := vm_compute; first [reflexivity | discriminate].

(** * Paths and formatted dates *)

Lemma split_slash_not_nil (s : string) : split_slash s <> [].
Proof.
  destruct s as [|c s]; simpl; [discriminate|].
  destruct (Ascii.eqb c slash); [discriminate|].
  destruct (split_slash s); discriminate.
Qed.

Lemma split_slash_elem (a b : string) :
  split_slash a = [a] ->
  split_slash (a ++ String slash b)%string = a :: split_slash b.
Proof.
  induction a as [|c a IH]; simpl; intros Ha.
  - reflexivity.
  - destruct (Ascii.eqb c slash); [discriminate|].
    destruct (split_slash a) as [|e r] eqn:E.
    + exfalso. exact (split_slash_not_nil _ E).
    + injection Ha as -> ->. rewrite (IH eq_refl). reflexivity.
Qed.

Lemma entry_nameb_spec (nm : string) : entry_nameb nm = true -> entry_name nm.
Proof.
  unfold entry_nameb, entry_name.
  destruct (split_slash nm) as [|e [|e' r]]; try discriminate.
  intros H. apply andb_prop in H as [H1 H2].
  apply String.eqb_eq in H1. subst e. split; [reflexivity|assumption].
Qed.

Lemma date_fieldb_spec (width : nat) (z : Z) (s : string) :
  date_fieldb width z s = true -> date_field width z s.
Proof.
  unfold date_fieldb, date_field. intros H.
  apply andb_prop in H as [H H3]. apply andb_prop in H as [H1 H2].
  apply Nat.eqb_eq in H1.
  destruct (decimal_value s) as [v|]; [|discriminate].
  apply Z.eqb_eq in H2. subst v.
  auto using entry_nameb_spec.
Qed.

(** Every value of a range passes a test that passes on the whole range. *)
Lemma range_check (f : Z -> bool) (lo len : nat) :
  forallb (fun n => f (Z.of_nat n)) (seq lo len) = true ->
  forall z, (Z.of_nat lo <= z < Z.of_nat (lo + len))%Z -> f z = true.
Proof.
  intros H z Hz. rewrite forallb_forall in H.
  rewrite <- (Z2Nat.id z) by lia. apply H. apply in_seq. lia.
Qed.

Lemma fmt_0d_year (y : Z) : (0 <= y <= 9999)%Z -> date_field 4 y (fmt_0d 4 y).
Proof.
  intros H. apply date_fieldb_spec.
  apply (range_check (fun z => date_fieldb 4 z (fmt_0d 4 z)) 0 (100 * 100));
    [vm_compute; reflexivity | lia].
Qed.

Lemma fmt_0d_two (z : Z) : (0 <= z <= 99)%Z -> date_field 2 z (fmt_0d 2 z).
Proof.
  intros H. apply date_fieldb_spec.
  apply (range_check (fun z => date_fieldb 2 z (fmt_0d 2 z)) 0 100);
    [vm_compute; reflexivity | lia].
Qed.

Lemma path_elems_entry (a b : string) :
  entry_name a ->
  path_elems (a ++ "/" ++ b)%string = a :: path_elems b.
Proof.
  intros [Ha Hk]. unfold path_elems.
  change ("/" ++ b)%string with (String slash b).
  rewrite (split_slash_elem a b Ha). simpl. rewrite Hk. reflexivity.
Qed.

Lemma path_elems_last (a : string) : entry_name a -> path_elems a = [a].
Proof.
  intros [Ha Hk]. unfold path_elems. rewrite Ha. simpl. rewrite Hk. reflexivity.
Qed.

(** The directory of a record: the elements of the destination, then the
    three fields. *)
Lemma Join_Sprintf_date (dest : fpath) (y m d : Z) :
  entry_name (fmt_0d 4 y) -> entry_name (fmt_0d 2 m) -> entry_name (fmt_0d 2 d) ->
  filepath_Join dest (Sprintf_date y m d) =
  mkPath (p_abs dest) (p_elems dest ++ [fmt_0d 4 y; fmt_0d 2 m; fmt_0d 2 d]).
Proof.
  intros Hy Hm Hd. unfold filepath_Join, Sprintf_date. f_equal. f_equal.
  rewrite (path_elems_entry _ _ Hy).
  rewrite (path_elems_entry _ _ Hm), (path_elems_last _ Hd). reflexivity.
Qed.

Lemma Join_Sprintf_date_name (dest : fpath) (y m d : Z) (nm : string) :
  entry_name (fmt_0d 4 y) -> entry_name (fmt_0d 2 m) -> entry_name (fmt_0d 2 d) ->
  entry_name nm ->
  filepath_Join dest (Sprintf_date_name y m d nm) =
  mkPath (p_abs dest) (p_elems dest ++ [fmt_0d 4 y; fmt_0d 2 m; fmt_0d 2 d; nm]).
Proof.
  intros Hy Hm Hd Hn. unfold filepath_Join, Sprintf_date_name. f_equal. f_equal.
  rewrite (path_elems_entry _ _ Hy), (path_elems_entry _ _ Hm),
    (path_elems_entry _ _ Hd), (path_elems_last _ Hn). reflexivity.
Qed.

(** * The file tree *)

Lemma find_entry_add_same (es : forest) (nm : string) (c : tree) :
  find_entry es nm = None -> find_entry (add_entry es nm c) nm = Some c.
Proof.
  induction es as [|n t rest IH]; simpl; intros H.
  - rewrite String.eqb_refl. reflexivity.
  - destruct (String.eqb n nm); [discriminate | auto].
Qed.

Lemma find_entry_add_found (es : forest) (nm n' : string) (c x : tree) :
  find_entry es n' = Some x -> find_entry (add_entry es nm c) n' = Some x.
Proof.
  induction es as [|n t rest IH]; simpl; intros H; [discriminate|].
  destruct (String.eqb n n'); auto.
Qed.

Lemma find_entry_set_same (es : forest) (nm : string) (c x : tree) :
  find_entry es nm = Some x -> find_entry (set_entry es nm c) nm = Some c.
Proof.
  induction es as [|n t rest IH]; simpl; intros H; [discriminate|].
  destruct (String.eqb n nm) eqn:E; simpl; rewrite E; auto.
Qed.

Lemma find_entry_set_other (es : forest) (nm n' : string) (c : tree) :
  String.eqb nm n' = false ->
  find_entry (set_entry es nm c) n' = find_entry es n'.
Proof.
  intros Hne. induction es as [|n t rest IH]; simpl; [reflexivity|].
  destruct (String.eqb n nm) eqn:E; simpl.
  - apply String.eqb_eq in E. subst n. rewrite Hne. reflexivity.
  - rewrite IH. reflexivity.
Qed.

Lemma node_ino_le_max (t : tree) : node_ino t <= max_ino t.
Proof. destruct t; simpl; lia. Qed.

Lemma find_entry_max (es : forest) (nm : string) (c : tree) :
  find_entry es nm = Some c -> max_ino c <= max_ino_forest es.
Proof.
  induction es as [|n t rest IH]; simpl; intros H; [discriminate|].
  destruct (String.eqb n nm).
  - injection H as ->. lia.
  - specialize (IH H). lia.
Qed.

(** Every node that a path reaches has an inode number in use. *)
Lemma lookup_max (p : list string) : forall (t c : tree),
  lookup t p = Ok c -> max_ino c <= max_ino t.
Proof.
  induction p as [|nm p IH]; simpl; intros t c H.
  - injection H as ->. lia.
  - destruct t as [ty i pm | i pm es]; [discriminate|].
    destruct (find_entry es nm) as [x|] eqn:E; [|discriminate].
    apply IH in H. apply find_entry_max in E. simpl. lia.
Qed.

Lemma lookup_ino_le (t c : tree) (p : list string) :
  lookup t p = Ok c -> node_ino c <= max_ino t.
Proof.
  intros H. apply lookup_max in H. pose proof (node_ino_le_max c). lia.
Qed.

(** The new file is where it was linked. *)
Lemma add_file_lookup_new (p : list string) : forall (t t' : tree) (i : nat),
  add_file t p i = Ok t' -> lookup t' p = Ok (File Regular i perm_0666).
Proof.
  induction p as [|nm p IH]; intros t t' i H.
  - destruct t; discriminate.
  - destruct t as [ty j pm | j pm es]; [discriminate|].
    simpl in H. destruct p as [|nm' p'].
    + destruct (find_entry es nm) eqn:E; [discriminate|].
      destruct (p_write pm); [|discriminate].
      injection H as <-. simpl. rewrite (find_entry_add_same _ _ _ E). reflexivity.
    + destruct (find_entry es nm) as [c|] eqn:E; [|discriminate].
      destruct (add_file c (nm' :: p') i) as [c'|e] eqn:A; [|discriminate].
      injection H as <-.
      change (lookup (Dir j pm (set_entry es nm c')) (nm :: nm' :: p'))
        with (match find_entry (set_entry es nm c') nm with
              | Some x => lookup x (nm' :: p') | None => Err ENOENT end).
      rewrite (find_entry_set_same _ _ _ _ E). eauto.
Qed.

(** Linking a file leaves every file that was there where it was. *)
Lemma add_file_lookup_file (q : list string) :
  forall (t t' : tree) (p : list string) (i : nat) (ty : ftype) (j : nat) (pm : perm),
  add_file t p i = Ok t' ->
  lookup t q = Ok (File ty j pm) -> lookup t' q = Ok (File ty j pm).
Proof.
  induction q as [|n q IH]; intros t t' p i ty j pm A L.
  - simpl in L. injection L as ->. destruct p; discriminate.
  - destruct t as [ty0 j0 pm0 | j0 pm0 es]; [discriminate|].
    simpl in L. destruct (find_entry es n) as [x|] eqn:E; [|discriminate].
    destruct p as [|nm p0]; [discriminate|].
    simpl in A. destruct p0 as [|nm' p'].
    + destruct (find_entry es nm); [discriminate|].
      destruct (p_write pm0); [|discriminate].
      injection A as <-. simpl. rewrite (find_entry_add_found _ _ _ _ _ E). exact L.
    + destruct (find_entry es nm) as [c|] eqn:E'; [|discriminate].
      destruct (add_file c (nm' :: p') i) as [c'|e] eqn:A'; [|discriminate].
      injection A as <-. simpl.
      destruct (String.eqb nm n) eqn:Hn.
      * apply String.eqb_eq in Hn. subst n.
        rewrite (find_entry_set_same _ _ _ _ E').
        rewrite E in E'. injection E' as ->. eauto.
      * rewrite (find_entry_set_other _ _ _ _ Hn), E. exact L.
Qed.

(** [mkdir_all] without an error leaves a directory at the path. *)
Lemma mkdir_all_dir (p : list string) : forall (t t' : tree) (i : nat),
  mkdir_all t p i = (t', None) ->
  exists c, lookup t' p = Ok c /\ is_dir c = true.
Proof.
  induction p as [|nm p IH]; simpl; intros t t' i H.
  - destruct (is_dir t) eqn:D; [|discriminate].
    injection H as <-. eauto.
  - destruct t as [ty j pm | j pm es]; [discriminate|].
    destruct (find_entry es nm) as [c|] eqn:E.
    + destruct (mkdir_all c p i) as [c' err] eqn:M.
      injection H as <- ->. simpl.
      rewrite (find_entry_set_same _ _ _ _ E). eauto.
    + destruct (p_write pm); [|discriminate].
      destruct (mkdir_all (Dir i perm_0755 FNil) p (S i)) as [c' err] eqn:M.
      injection H as <- ->. simpl.
      rewrite (find_entry_add_same _ _ _ E). eauto.
Qed.

(** * The file copier *)

Lemma overwrite_empty (data : list byte) : overwrite [] data = data.
Proof. unfold overwrite. rewrite skipn_nil. apply app_nil_r. Qed.

Lemma upd_same (st : nat -> list byte) (i : nat) (v : list byte) : upd st i v i = v.
Proof. unfold upd. rewrite Nat.eqb_refl. reflexivity. Qed.

Lemma upd_other (st : nat -> list byte) (i j : nat) (v : list byte) :
  j <> i -> upd st i v j = st j.
Proof. unfold upd. intros H. apply Nat.eqb_neq in H. rewrite H. reflexivity. Qed.

(** Without [ENOSPC], [io.Copy] wrote all the bytes. *)
Lemma copy_all (data : list byte) (space : nat) :
  (Nat.min (List.length data) space <? List.length data) = false ->
  firstn (Nat.min (List.length data) space) data = data.
Proof.
  intros H. apply Nat.ltb_ge in H. apply firstn_all2. exact H.
Qed.

Section Copier.
Context {X : Extern}.

(** A copy into an existing regular file that is not the source. *)
Lemma copyFileContents_existing (w w' : World) (src dst : fpath)
      (i j : nat) (pi pj : perm) :
  lookup (root w) (resolve w src) = Ok (File Regular i pi) ->
  lookup (root w) (resolve w dst) = Ok (File Regular j pj) ->
  i <> j ->
  copyFileContents w src dst = (w', None) ->
  root w' = root w /\ cwd w' = cwd w /\
  store w' j = store w i /\ store w' i = store w i.
Proof.
  intros Ls Ld Hij. unfold copyFileContents, os_Open, os_Create.
  rewrite Ls, Ld. simpl.
  destruct (p_read pi); [|discriminate].
  destruct (p_write pj); [|discriminate].
  unfold io_Copy, file_data, f_ino. simpl.
  rewrite (upd_other _ _ _ _ Hij).
  destruct (Nat.min _ _ <? _) eqn:E; [discriminate|].
  unfold file_Sync. intros H. injection H as <-. simpl.
  rewrite (copy_all _ _ E), !upd_same, overwrite_empty.
  rewrite !(upd_other _ _ _ _ Hij). auto.
Qed.

(** A copy to a path where nothing is yet. *)
Lemma copyFileContents_new (w w' : World) (src dst : fpath)
      (i : nat) (pi : perm) :
  lookup (root w) (resolve w src) = Ok (File Regular i pi) ->
  lookup (root w) (resolve w dst) = Err ENOENT ->
  copyFileContents w src dst = (w', None) ->
  exists j pj,
    lookup (root w') (resolve w dst) = Ok (File Regular j pj) /\
    lookup (root w') (resolve w src) = Ok (File Regular i pi) /\
    cwd w' = cwd w /\
    store w' j = store w i /\ store w' i = store w i.
Proof.
  intros Ls Ld. unfold copyFileContents, os_Open, os_Create.
  rewrite Ls, Ld. simpl.
  destruct (p_read pi); [|discriminate].
  destruct (add_file _ _ _) as [t'|e] eqn:A; [|discriminate].
  assert (Hi : i <> S (max_ino (root w))).
  { pose proof (lookup_ino_le _ _ _ Ls) as Hle. simpl in Hle. lia. }
  unfold io_Copy, file_data, f_ino. simpl.
  rewrite (upd_other _ _ _ _ Hi).
  destruct (Nat.min _ _ <? _) eqn:E; [discriminate|].
  unfold file_Sync. intros H. injection H as <-. simpl.
  exists (S (max_ino (root w))), perm_0666.
  rewrite (copy_all _ _ E), !upd_same, overwrite_empty.
  rewrite !(upd_other _ _ _ _ Hi).
  repeat split.
  - exact (add_file_lookup_new _ _ _ _ A).
  - exact (add_file_lookup_file _ _ _ _ _ _ _ _ A Ls).
Qed.

(** When [copyFile] returns no error, the destination is a regular file
    with the bytes the source had, and the source still has them. *)
Lemma copyFile_identical (w w' : World) (src dst : fpath) :
  copyFile w src dst = (w', None) ->
  exists data,
    contents w src = Some data /\
    contents w' dst = Some data /\
    contents w' src = Some data.
Proof.
  unfold copyFile, os_Stat.
  destruct (lookup (root w) (resolve w src)) as [ts|e] eqn:Ls; [|discriminate].
  destruct ts as [[|] i pi | i pi es]; simpl; try discriminate.
  destruct (lookup (root w) (resolve w dst)) as [td|e] eqn:Ld.
  - destruct td as [[|] j pj | j pj es]; simpl; try discriminate.
    unfold os_SameFile. simpl.
    destruct (Nat.eqb i j) eqn:Eij.
    + apply Nat.eqb_eq in Eij. subst j.
      intros H. injection H as <-.
      exists (store w i). unfold contents. rewrite Ls, Ld. auto.
    + apply Nat.eqb_neq in Eij. intros H.
      destruct (copyFileContents_existing _ _ _ _ _ _ _ _ Ls Ld Eij H)
        as (Hr & Hc & Hj & Hi).
      exists (store w i). unfold contents, resolve.
      rewrite Hr, Hc. fold (resolve w src). fold (resolve w dst).
      rewrite Ls, Ld, Hj, Hi. auto.
  - destruct e; simpl; try discriminate.
    intros H.
    destruct (copyFileContents_new _ _ _ _ _ _ Ls Ld H)
      as (j & pj & Hd & Hs & Hc & Hj & Hi).
    exists (store w i). unfold contents, resolve.
    rewrite Hc. fold (resolve w src). fold (resolve w dst).
    rewrite Ls, Hd, Hs, Hj, Hi. auto.
Qed.

(** [copyFile] writes nothing to the error stream. *)
Lemma copyFile_stderr (w : World) (src dst : fpath) :
  stderr (fst (copyFile w src dst)) = stderr w.
Proof.
  unfold copyFile.
  destruct (os_Stat w src) as [sfi|e]; [|reflexivity].
  assert (C : stderr (fst (copyFileContents w src dst)) = stderr w).
  { unfold copyFileContents.
    destruct (os_Open w src) as [f|e]; [|reflexivity].
    unfold os_Create.
    destruct (lookup (root w) (resolve w dst)) as [t|e].
    - destruct (is_dir t); [reflexivity|].
      destruct (p_write (node_perm t)); [|reflexivity].
      unfold io_Copy.
      destruct (is_regular t);
        (destruct (file_data _ f) as [data|e]; [|reflexivity]);
        simpl; destruct (_ <? _); reflexivity.
    - destruct (os_IsNotExist e); [|reflexivity].
      destruct (add_file _ _ _) as [t'|e']; [|reflexivity].
      unfold io_Copy.
      destruct (file_data _ f) as [data|e0]; [|reflexivity].
      simpl. destruct (_ <? _); reflexivity. }
  destruct (negb (fi_IsRegular sfi)); [reflexivity|].
  destruct (os_Stat w dst) as [dfi|e].
  - destruct (negb (fi_IsRegular dfi)); [reflexivity|].
    destruct (os_SameFile sfi dfi); [reflexivity|exact C].
  - destruct (negb (os_IsNotExist e)); [reflexivity|exact C].
Qed.
End Copier.

(** * The enumerator *)

Lemma lookup_app (p q : list string) : forall t : tree,
  lookup t (p ++ q) =
  match lookup t p with Ok c => lookup c q | Err e => Err e end.
Proof.
  induction p as [|nm p IH]; simpl; intros t; [reflexivity|].
  destruct t as [ty i pm | i pm es]; [reflexivity|].
  destruct (find_entry es nm); [apply IH | reflexivity].
Qed.

Lemma resolve_child (w : World) (p : fpath) (nm : string) :
  resolve w (path_child p nm) = resolve w p ++ [nm].
Proof.
  unfold resolve, path_child. simpl.
  destruct (p_abs p); [reflexivity | apply app_assoc].
Qed.

Lemma member_find (es : forest) (nm : string) (c : tree) :
  distinct_in es = true -> member nm c es -> find_entry es nm = Some c.
Proof.
  induction es as [|n t rest IH]; simpl; intros D M; [contradiction|].
  apply andb_prop in D as [D D3]. apply andb_prop in D as [D1 D2].
  destruct (String.eqb n nm) eqn:E.
  - destruct M as [[_ ->] | M]; [reflexivity|].
    apply String.eqb_eq in E. subst n.
    rewrite (IH D3 M) in D1. discriminate.
  - destruct M as [[-> _] | M]; [|auto].
    rewrite String.eqb_refl in E. discriminate.
Qed.

Lemma member_distinct (es : forest) (nm : string) (c : tree) :
  distinct_in es = true -> member nm c es -> distinct_names c = true.
Proof.
  induction es as [|n t rest IH]; simpl; intros D M; [contradiction|].
  apply andb_prop in D as [D D3]. apply andb_prop in D as [D1 D2].
  destruct M as [[_ <-] | M]; auto.
Qed.

Section Enumerator.
Context {X : Extern}.
Variable w : World.

Lemma listed_app (a b : list (fpath * string * tree)) :
  listed w (a ++ b) = listed w a ++ listed w b.
Proof. unfold listed. rewrite filter_app, map_app. reflexivity. Qed.

(** The header that the closure reads is the one [sniffed] names. *)
Lemma file_Read_sniffed (nm : string) (t : tree) :
  is_dir t = false ->
  fst (file_Read w (mkFile (info_of nm t)) (make_bytes 261)) = sniffed w t.
Proof.
  intros Hd. unfold file_Read, file_data, f_ino, info_of.
  cbn [f_info fi_IsDir fi_ino]. rewrite Hd. cbn [fst].
  unfold sniffed, make_bytes. rewrite repeat_length. reflexivity.
Qed.

(** What the closure does with an entry that is not a directory. *)
Lemma walkFn_file (p : fpath) (nm : string) (t : tree)
      (acc acc' : list Image) (r : option error) :
  is_dir t = false ->
  lookup (root w) (resolve w p) = Ok t ->
  getImages_walkFn w p (info_of nm t) None acc = (acc', r) ->
  (r = None -> acc' = acc ++ listed w [(p, nm, t)]) /\ r <> Some SkipDir.
Proof.
  intros Hd L. unfold getImages_walkFn, os_Open.
  cbn [info_of fi_IsDir fi_Name]. rewrite Hd, L.
  destruct (p_read (node_perm t)).
  - rewrite (file_Read_sniffed _ t Hd).
    unfold listed, image_entry. cbn [filter map snd fst].
    destruct (filetype_IsImage (sniffed w t)).
    + unfold filepath_Abs, record_of, resolve. simpl.
      destruct p as [[|] elems]; simpl.
      * intros H. injection H as <- <-. split; [reflexivity|discriminate].
      * destruct (getwd_ok w); intros H; injection H as <- <-;
          (split; [try reflexivity; discriminate | discriminate]).
    + intros H. injection H as <- <-.
      rewrite app_nil_r. split; [reflexivity|discriminate].
  - intros H. injection H as <- <-. split; discriminate.
Qed.

(** The walk without an error has appended the records of the image
    entries, in order; and its error is never [SkipDir]. *)
Lemma walk_listed (t : tree) :
  forall (p : fpath) (nm : string) (acc acc' : list Image) (r : option error),
    distinct_names t = true ->
    lookup (root w) (resolve w p) = Ok t ->
    walk (getImages_walkFn w) t p nm acc = (acc', r) ->
    (r = None -> acc' = acc ++ listed w (entries_under t p nm)) /\
    r <> Some SkipDir.
Proof.
  induction t using tree_forest_ind with
    (P0 := fun es =>
       forall (p : fpath) (acc acc' : list Image) (r : option error),
         distinct_in es = true ->
         (forall nm c, member nm c es ->
                       lookup (root w) (resolve w (path_child p nm)) = Ok c) ->
         walk_names (getImages_walkFn w) es p acc = (acc', r) ->
         (r = None -> acc' = acc ++ listed w (entries_in es p)) /\
         r <> Some SkipDir).
  - (* a file *)
    intros p nm acc acc' r _ L H. simpl in H.
    exact (walkFn_file p nm (File ty ino pm) acc acc' r eq_refl L H).
  - (* a directory *)
    intros p nm acc acc' r D L H. simpl in H, D.
    destruct (p_read pm); simpl in H.
    + apply (IHt p acc acc' r D); [|exact H].
      intros n c M. rewrite resolve_child, lookup_app, L. simpl.
      rewrite (member_find es n c D M). reflexivity.
    + injection H as <- <-. split; discriminate.
  - (* no entry *)
    intros p acc acc' r _ _ H. simpl in H. injection H as <- <-.
    simpl. rewrite app_nil_r. split; [reflexivity|discriminate].
  - (* an entry and the rest *)
    intros p acc acc' r D M H. simpl in H, D.
    apply andb_prop in D as [D D3]. apply andb_prop in D as [D1 D2].
    destruct (walk (getImages_walkFn w) t (path_child p nm) nm acc)
      as [s1 err] eqn:W.
    destruct (IHt (path_child p nm) nm acc s1 err D2
                  (M nm t (or_introl (conj eq_refl eq_refl))) W) as [Hok Hskip].
    destruct err as [e|].
    + assert (is_SkipDir e = false) as E
          by (destruct e; try reflexivity; congruence).
      rewrite E, orb_true_r in H. injection H as <- <-.
      split; [discriminate | exact Hskip].
    + destruct (IHt0 p s1 acc' r D3 (fun n c Hm => M n c (or_intror Hm)) H)
        as [Hok' Hskip'].
      split; [|exact Hskip'].
      intros Hr. rewrite (Hok' Hr), (Hok eq_refl). simpl.
      rewrite listed_app, app_assoc. reflexivity.
Qed.

(** [getImages] without an error returns the records of the image entries
    under the root of the walk, in the order of the walk. *)
Lemma getImages_listed (src : fpath) (t : tree) (imgs : list Image) :
  distinct_names t = true ->
  lookup (root w) (resolve w src) = Ok t ->
  getImages w src = (imgs, None) ->
  imgs = listed w (entries_under t src (filepath_Base src)).
Proof.
  intros D L. unfold getImages, filepath_Walk, os_Lstat, os_Stat.
  rewrite L. simpl.
  destruct (walk (getImages_walkFn w) t src (filepath_Base src) [])
    as [s1 err] eqn:W.
  destruct (walk_listed t src _ [] s1 err D L W) as [Hok Hskip].
  destruct err as [e|].
  - assert (is_SkipDir e = false) as E
        by (destruct e; try reflexivity; congruence).
    rewrite E. discriminate.
  - intros H. injection H as <-. exact (Hok eq_refl).
Qed.

(** With an error, [getImages] returns [nil]. *)
Lemma getImages_error (src : fpath) (e : error) :
  snd (getImages w src) = Some e -> fst (getImages w src) = [].
Proof.
  unfold getImages.
  destruct (filepath_Walk (getImages_walkFn w) w src []) as [images [e'|]];
    simpl; [reflexivity | discriminate].
Qed.
End Enumerator.

(** * The phases of [main] *)

(** A property of the closed-over variables that the [WalkFunc] keeps is
    kept by the walk. *)
Lemma walk_invariant (S' : Type)
      (walkFn : fpath -> FileInfo -> option error -> S' -> S' * option error)
      (P : S' -> Prop) :
  (forall p info err s, P s -> P (fst (walkFn p info err s))) ->
  forall (t : tree) (p : fpath) (nm : string) (s : S'),
    P s -> P (fst (walk walkFn t p nm s)).
Proof.
  intros Hfn.
  induction t using tree_forest_ind with
    (P0 := fun es => forall (p : fpath) (s : S'),
               P s -> P (fst (walk_names walkFn es p s))).
  - intros p nm s Hs. simpl. auto.
  - intros p nm s Hs. simpl.
    pose proof (Hfn p (info_of nm (Dir ino pm es))
                    (if p_read pm then None else Some EACCES) s Hs) as H1.
    destruct (walkFn p _ _ s) as [s1 err1].
    destruct (p_read pm); [|exact H1].
    destruct err1; [exact H1 | auto].
  - intros p s Hs. exact Hs.
  - intros p s Hs. simpl.
    pose proof (IHt (path_child p nm) nm s Hs) as H1.
    destruct (walk walkFn t (path_child p nm) nm s) as [s1 err].
    destruct err as [e|]; [|auto].
    destruct (negb (is_dir t) || negb (is_SkipDir e)); [exact H1 | auto].
Qed.

Section Phases.
Context {X : Extern}.

Lemma walkFn_undated (w : World) (p : fpath) (info : FileInfo)
      (err : option error) (acc : list Image) :
  Forall undated acc ->
  Forall undated (fst (getImages_walkFn w p info err acc)).
Proof.
  intros H. unfold getImages_walkFn.
  destruct err; [exact H|].
  destruct (fi_IsDir info); [exact H|].
  destruct (os_Open w p) as [f|e]; [|exact H].
  cbv zeta. destruct (filetype_IsImage _); [|exact H].
  destruct (filepath_Abs w p) as [a|e]; [|exact H].
  simpl. apply Forall_app. split; [exact H|].
  constructor; [|constructor]. repeat split.
Qed.

(** The enumerator leaves year, month and day of every record at zero. *)
Lemma getImages_undated (w : World) (src : fpath) :
  Forall undated (fst (getImages w src)).
Proof.
  unfold getImages, filepath_Walk.
  assert (H : Forall undated
                (fst (match os_Lstat w src, lookup (root w) (resolve w src) with
                      | Ok info, Ok t =>
                          walk (getImages_walkFn w) t src (fi_Name info) []
                      | Err e, _ | _, Err e =>
                          getImages_walkFn w src nil_FileInfo (Some e) []
                      end))).
  { destruct (os_Lstat w src) as [info|e].
    - destruct (lookup (root w) (resolve w src)) as [t|e].
      + apply (walk_invariant _ (getImages_walkFn w) (Forall undated));
          [intros; apply walkFn_undated; assumption | constructor].
      + apply walkFn_undated. constructor.
    - apply walkFn_undated. constructor. }
  destruct (match os_Lstat w src, lookup (root w) (resolve w src) with
            | Ok info, Ok t => _ | Err e, _ | _, Err e => _ end) as [s1 err].
  destruct err as [e|]; simpl in *.
  - destruct (is_SkipDir e); [exact H | constructor].
  - exact H.
Qed.

(** A failed [getDate] leaves the record as it was. *)
Lemma getDate_error (w : World) (image : Image) (e : error) :
  snd (getDate w image) = Some e -> fst (getDate w image) = image.
Proof.
  unfold getDate.
  destruct (os_Open w (path image)) as [f|e1]; [|reflexivity].
  destruct (file_data w f) as [bytes|e2]; [|reflexivity].
  destruct (exif_Decode bytes) as [x|e3]; [|reflexivity].
  destruct (Exif_DateTime x) as [date|e4]; [discriminate | reflexivity].
Qed.

Lemma main_dates_map (w : World) (images : list Image) :
  main_dates w images = map (fun image => fst (getDate w image)) images.
Proof.
  induction images as [|image rest IH]; simpl; [reflexivity|].
  destruct (getDate w image) as [image' [e|]]; simpl; rewrite IH; reflexivity.
Qed.

Lemma main_dates_app (w : World) (a b : list Image) :
  main_dates w (a ++ b) = main_dates w a ++ main_dates w b.
Proof. rewrite !main_dates_map. apply map_app. Qed.

Lemma main_folders_app (dest : fpath) (a b : list Image) : forall w : World,
  main_folders dest (a ++ b) w =
  match main_folders dest a w with
  | (w0, None) => main_folders dest b w0
  | (w0, Some code) => (w0, Some code)
  end.
Proof.
  induction a as [|image rest IH]; simpl; intros w.
  - destruct (main_folders dest b w) as [w0 [c|]]; reflexivity.
  - destruct (IsNotExist _); [|apply IH].
    destruct (os_MkdirAll w _) as [w1 [e|]]; [reflexivity | apply IH].
Qed.

Lemma main_copy_app (dest : fpath) (a b : list Image) : forall w : World,
  main_copy dest (a ++ b) w = main_copy dest b (main_copy dest a w).
Proof.
  induction a as [|image rest IH]; simpl; intros w; [reflexivity|].
  destruct (copyFile w (path image) _) as [w1 [e|]]; apply IH.
Qed.

(** What was written to the error stream stays there during the copies. *)
Lemma main_copy_stderr (dest : fpath) (m : message) (images : list Image) :
  forall w : World, In m (stderr w) -> In m (stderr (main_copy dest images w)).
Proof.
  induction images as [|image rest IH]; simpl; intros w H; [exact H|].
  pose proof (copyFile_stderr w (path image)
    (filepath_Join dest
       (Sprintf_date_name (year image) (month image) (day image) (name image))))
    as Hs.
  destruct (copyFile w (path image) _) as [w1 [e|]]; simpl in Hs; apply IH.
  - simpl. rewrite Hs. apply in_or_app. left. exact H.
  - rewrite Hs. exact H.
Qed.

(** From "Create folder structure" on, [main] is the two loops. *)
Lemma main_phases (fl : Flags) (w w1 : World) (images : list Image) :
  main_enumerate fl w = Some (images, w1) ->
  main fl w =
  match main_folders (destFlag fl) images w1 with
  | (w2, Some code) => (w2, code)
  | (w2, None) => (main_copy (destFlag fl) images w2, 0%Z)
  end.
Proof.
  unfold main_enumerate, main. cbn [required main_required seen String.eqb Ascii.eqb Bool.eqb].
  destruct (negb (is_some (flag_destination fl))); [discriminate|].
  destruct (os_Open w (sourceFlag fl)) as [file|e]; [|discriminate].
  cbn [file_Stat].
  destruct (negb (fi_IsDir (f_info file))); [discriminate|].
  destruct (getImages w (sourceFlag fl)) as [imgs err].
  intros H. injection H as <- <-. reflexivity.
Qed.
End Phases.

(** * The statements *)

Section Statements.
Context {X : Extern}.


(** C2, as amended.  When the walk ends without an error, [getImages]
    returns, in the order of the walk, one record for each entry below the
    source that is not a directory and whose first 261 bytes (with zeros
    after them when it is shorter) the classifier takes for an image, with
    the absolute path and the name of the entry; the name of an entry plays
    no part.  When the walk ends with an error the result is empty, and so
    it is whenever no entry below the source is an image. *)
Theorem C2_enumerator (w : World) (src : fpath) (t : tree) :
  lookup (root w) (resolve w src) = Ok t ->
  distinct_names t = true ->
  let entries := entries_under t src (filepath_Base src) in
  (forall imgs, getImages w src = (imgs, None) ->
                imgs = map (record_of w) (filter (image_entry w) entries)) /\
  (forall e, snd (getImages w src) = Some e -> fst (getImages w src) = []) /\
  (filter (image_entry w) entries = [] -> fst (getImages w src) = []).
Proof.
  intros L D entries. split; [|split].
  - intros imgs H. exact (getImages_listed w src t imgs D L H).
  - apply getImages_error.
  - intros Hnone.
    destruct (getImages w src) as [imgs [e|]] eqn:G.
    + rewrite <- G. apply (getImages_error w src e). rewrite G. reflexivity.
    + simpl. rewrite (getImages_listed w src t imgs D L G).
      unfold listed. fold entries. rewrite Hnone. reflexivity.
Qed.

(** C4, as amended.  When the walk of [getImages] ends with an error,
    [main] writes the error to the error stream and does not exit there:
    it goes through the three loops with an empty batch (the images that
    the walk had met before the error are dropped), so that nothing is
    created or copied and the exit status is 0. *)
Theorem C4_traversal_error_empties_batch
        (fl : Flags) (w : World) (file : os_File) (e : error) :
  flag_destination fl <> None ->
  os_Open w (sourceFlag fl) = Ok file ->
  fi_IsDir (f_info file) = true ->
  snd (getImages w (sourceFlag fl)) = Some e ->
  main_enumerate fl w = Some ([], Fprint_Stderr w (MsgWalk (sourceFlag fl) e)) /\
  main fl w = (Fprint_Stderr w (MsgWalk (sourceFlag fl) e), 0%Z).
Proof.
  intros Hd Ho Hdir He.
  assert (E : main_enumerate fl w =
              Some ([], Fprint_Stderr w (MsgWalk (sourceFlag fl) e))).
  { unfold main_enumerate. rewrite Ho, Hdir.
    destruct (flag_destination fl); [|congruence]. simpl.
    pose proof (getImages_error w (sourceFlag fl) e He) as Hnil.
    destruct (getImages w (sourceFlag fl)) as [imgs err].
    simpl in *. subst. reflexivity. }
  split; [exact E|]. rewrite (main_phases fl w _ _ E). reflexivity.
Qed.

(** C5, as amended.  Without [-destination], [main] writes two messages
    and exits with status 2, whatever the file tree is and without a change
    to it.  With [-destination] and a [-source] that can be opened and is
    not a directory, it writes one message and exits with status 2. *)
Theorem C5_configuration_errors (fl : Flags) (w : World) :
  (flag_destination fl = None ->
   main fl w =
   (Fprint_Stderr (Fprint_Stderr w (MsgMissingFlag "destination")) MsgPrintDefaults,
    2%Z)) /\
  (forall file,
      flag_destination fl <> None ->
      os_Open w (sourceFlag fl) = Ok file ->
      fi_IsDir (f_info file) = false ->
      main fl w = (Fprint_Stderr w (MsgNotDirectory (sourceFlag fl)), 2%Z)).
Proof.
  split.
  - intros H. unfold main.
    cbn [required main_required seen String.eqb Ascii.eqb Bool.eqb].
    rewrite H. reflexivity.
  - intros file Hd Ho Hdir. unfold main.
    cbn [required main_required seen String.eqb Ascii.eqb Bool.eqb].
    destruct (flag_destination fl); [|congruence].
    cbn [is_some negb]. rewrite Ho. cbn [file_Stat]. rewrite Hdir. reflexivity.
Qed.

(** C6.  Take a record of the batch for which the date directory is not
    there and [MkdirAll] fails, the records before it having been placed.
    Then [main] ends in the world that [MkdirAll] left, with the error
    written to the error stream, and with exit status 1: no record after it
    is placed and nothing is copied. *)
Theorem C6_mkdir_failure_is_fatal
        (fl : Flags) (w w1 w2 w3 : World) (pre rest : list Image) (im : Image)
        (e : error) :
  main_enumerate fl w = Some (pre ++ im :: rest, w1) ->
  main_folders (destFlag fl) pre w1 = (w2, None) ->
  let newPath :=
    filepath_Join (destFlag fl) (Sprintf_date (year im) (month im) (day im)) in
  IsNotExist (err_of (os_Stat w2 newPath)) = true ->
  os_MkdirAll w2 newPath = (w3, Some e) ->
  main fl w = (Fprint_Stderr w3 (MsgMkdir newPath e), 1%Z).
Proof.
  intros He Hpre newPath Hstat Hmk.
  rewrite (main_phases fl w w1 _ He), main_folders_app, Hpre.
  simpl. fold newPath. rewrite Hstat, Hmk. reflexivity.
Qed.

(** C7.  Take a run that reaches the copy loop and a record of the batch
    whose copy fails.  The error is written to the error stream, the loop
    goes on with the records after it, the message is still on the error
    stream when [main] ends, and the exit status is 0. *)
Theorem C7_copy_failure_is_reported
        (fl : Flags) (w w1 w2 w4 : World) (pre post : list Image) (im : Image)
        (e : error) :
  main_enumerate fl w = Some (pre ++ im :: post, w1) ->
  main_folders (destFlag fl) (pre ++ im :: post) w1 = (w2, None) ->
  let newPath :=
    filepath_Join (destFlag fl)
      (Sprintf_date_name (year im) (month im) (day im) (name im)) in
  copyFile (main_copy (destFlag fl) pre w2) (path im) newPath = (w4, Some e) ->
  main fl w =
    (main_copy (destFlag fl) post
               (Fprint_Stderr w4 (MsgCopy (path im) newPath e)), 0%Z) /\
  In (MsgCopy (path im) newPath e) (stderr (fst (main fl w))).
Proof.
  intros He Hf newPath Hc.
  assert (M : main fl w =
              (main_copy (destFlag fl) post
                         (Fprint_Stderr w4 (MsgCopy (path im) newPath e)), 0%Z)).
  { rewrite (main_phases fl w w1 _ He), Hf, main_copy_app.
    simpl. fold newPath. rewrite Hc. reflexivity. }
  split; [exact M|].
  rewrite M. simpl. apply main_copy_stderr. simpl.
  apply in_or_app. right. left. reflexivity.
Qed.

(** C8.  When [os.Stat] finds the same underlying file at the source and
    at the destination, [copyFile] returns in the world in which it was
    called: nothing is created, truncated or written.  When that file is
    regular the error is [nil]. *)
Theorem C8_copy_onto_itself (w : World) (src dst : fpath) (sfi dfi : FileInfo) :
  os_Stat w src = Ok sfi ->
  os_Stat w dst = Ok dfi ->
  os_SameFile sfi dfi = true ->
  fst (copyFile w src dst) = w /\
  contents (fst (copyFile w src dst)) src = contents w src /\
  (fi_IsRegular sfi = true -> fi_IsRegular dfi = true ->
   copyFile w src dst = (w, None)).
Proof.
  intros Hs Hd Hsame.
  assert (E : fst (copyFile w src dst) = w).
  { unfold copyFile. rewrite Hs, Hd, Hsame.
    destruct (negb (fi_IsRegular sfi)); [reflexivity|].
    destruct (negb (fi_IsRegular dfi)); reflexivity. }
  split; [exact E|]. split; [rewrite E; reflexivity|].
  intros Rs Rd. unfold copyFile. rewrite Hs, Hd, Hsame, Rs, Rd. reflexivity.
Qed.

(** C9.  When the source is not a regular file, or the destination is
    there and is not a regular file, [copyFile] returns an error in the
    world in which it was called: no byte is written. *)
Theorem C9_non_regular_is_refused (w : World) (src dst : fpath) :
  match os_Stat w src with
  | Ok sfi => fi_IsRegular sfi = false
  | Err _ => True
  end \/
  (exists dfi, os_Stat w dst = Ok dfi /\ fi_IsRegular dfi = false) ->
  exists e, copyFile w src dst = (w, Some e).
Proof.
  intros H. unfold copyFile.
  destruct (os_Stat w src) as [sfi|es]; [|eauto].
  destruct (fi_IsRegular sfi) eqn:Rs; simpl; [|eauto].
  destruct H as [H | (dfi & Hd & Rd)]; [discriminate|].
  rewrite Hd, Rd. simpl. eauto.
Qed.

(** C10.  Two runs from the same world whose command lines agree on
    [-source] and [-destination], and so differ in [-dry-run] at most, end in
    the same world with the same exit status. *)
Theorem C10_dry_run_is_ignored (fl1 fl2 : Flags) (w : World) :
  flag_source fl1 = flag_source fl2 ->
  flag_destination fl1 = flag_destination fl2 ->
  main fl1 w = main fl2 w.
Proof.
  destruct fl1 as [s1 d1 b1], fl2 as [s2 d2 b2]. simpl.
  intros -> ->. reflexivity.
Qed.
End Statements.

(** * Concrete runs *)

Import Demo.



(** C2, as stated, fails.  In [locked_world] the regular file [/in/a.jpg]
    starts with the JPEG signature, and the enumerator returns nothing: the
    entry after it cannot be opened.  In [device_world] the enumerator
    returns [/in/cam0], which is not a regular file. *)
Lemma C2_counterexample :
  (lookup (root locked_world) ["in"; "a.jpg"] = Ok (File Regular 3 rw) /\
   filetype_IsImage (sniffed locked_world (File Regular 3 rw)) = true /\
   getImages locked_world (abs ["in"]) = ([], Some EACCES)) /\
  (lookup (root device_world) ["in"; "cam0"] = Ok (File Device 3 rw) /\
   is_regular (File Device 3 rw) = false /\
   getImages device_world (abs ["in"]) = ([cam0], None)).
Proof. repeat split; run. Qed.

Lemma C2_enumerator_witness :
  [mkImage "x.jpg" (abs ["in"; "a"; "x.jpg"]) 0 0 0;
   mkImage "x.jpg" (abs ["in"; "b"; "x.jpg"]) 0 0 0] =
  map (record_of twins)
      (filter (image_entry twins)
              (entries_under
                 (Dir 2 rw
                    (FCons "a" (Dir 3 rw (FCons "x.jpg" (File Regular 4 rw) FNil))
                    (FCons "b" (Dir 5 rw (FCons "x.jpg" (File Regular 6 rw) FNil))
                     FNil)))
                 (abs ["in"]) (filepath_Base (abs ["in"])))) /\
  fst (getImages mixed (abs ["in"; "notes.jpg"])) = [].
Proof.
  split.
  - apply (proj1 (C2_enumerator twins (abs ["in"]) _ eq_refl eq_refl)).
    vm_compute. reflexivity.
  - apply (proj2 (proj2 (C2_enumerator mixed (abs ["in"; "notes.jpg"])
                           (File Regular 3 rw) eq_refl eq_refl))).
    vm_compute. reflexivity.
Defined.

(** C4, as stated, fails.  In [locked_world] the walk has met the image
    [/in/a.jpg] when it fails on [/in/b.jpg]; [getImages] returns no image,
    and the run ends with status 0 without a copy of [a.jpg]. *)
Lemma C4_counterexample :
  filepath_Walk (getImages_walkFn locked_world) locked_world (abs ["in"]) [] =
    ([a_found], Some EACCES) /\
  getImages locked_world (abs ["in"]) = ([], Some EACCES) /\
  main fl locked_world =
    (Fprint_Stderr locked_world (MsgWalk (abs ["in"]) EACCES), 0%Z) /\
  is_directory (fst (main fl locked_world)) (abs ["out"; "0000"]) = false /\
  contents (fst (main fl locked_world)) (abs ["out"; "0000"; "00"; "00"; "a.jpg"]) = None /\
  contents (fst (main fl locked_world)) (abs ["out"; "2021"; "06"; "15"; "a.jpg"]) = None.
Proof. repeat split; run. Qed.

Lemma C4_traversal_error_empties_batch_witness :
  main fl locked_world =
    (Fprint_Stderr locked_world (MsgWalk (sourceFlag fl) EACCES), 0%Z).
Proof.
  refine (proj2 (C4_traversal_error_empties_batch fl locked_world
                   (mkFile (info_of "in" (Dir 2 rw FNil))) EACCES _ _ _ _)).
  - discriminate.
  - vm_compute. reflexivity.
  - reflexivity.
  - vm_compute. reflexivity.
Defined.

(** C5, as stated, fails.  In [secret] the source is a regular file that
    cannot be opened, and the exit status is 1. *)
Lemma C5_counterexample :
  lookup (root secret) (resolve secret (abs ["secret"])) = Ok (File Regular 2 locked) /\
  main (flags ["secret"] ["out"]) secret =
    (Fprint_Stderr secret (MsgOpenSource (abs ["secret"]) EACCES), 1%Z).
Proof. repeat split; run. Qed.

Lemma C5_configuration_errors_witness :
  main (mkFlags (Some (abs ["in"])) None None) mixed =
    (Fprint_Stderr (Fprint_Stderr mixed (MsgMissingFlag "destination"))
                   MsgPrintDefaults, 2%Z) /\
  main (flags ["in"; "scan.txt"] ["out"]) mixed =
    (Fprint_Stderr mixed (MsgNotDirectory (abs ["in"; "scan.txt"])), 2%Z).
Proof.
  split.
  - apply (proj1 (C5_configuration_errors
                    (mkFlags (Some (abs ["in"])) None None) mixed)).
    reflexivity.
  - apply (proj2 (C5_configuration_errors (flags ["in"; "scan.txt"] ["out"]) mixed)
                 (mkFile (info_of "scan.txt" (File Regular 4 rw)))).
    + discriminate.
    + vm_compute. reflexivity.
    + reflexivity.
Defined.

Lemma C6_mkdir_failure_is_fatal_witness :
  main fl sealed =
    (Fprint_Stderr sealed (MsgMkdir (abs ["out"; "0000"; "00"; "00"]) EACCES), 1%Z).
Proof.
  apply (C6_mkdir_failure_is_fatal fl sealed sealed sealed sealed [] []
                                   scan EACCES).
  - vm_compute. reflexivity.
  - reflexivity.
  - vm_compute. reflexivity.
  - vm_compute. reflexivity.
Defined.

Lemma C7_copy_failure_is_reported_witness :
  In (MsgCopy (path x_dated) out_x ENOSPC) (stderr (fst (main fl full_disk))) /\
  snd (main fl full_disk) = 0%Z.
Proof.
  destruct (C7_copy_failure_is_reported fl full_disk full_disk
              (placed full_disk [x_dated])
              (fst (copyFile (placed full_disk [x_dated]) (path x_dated) out_x))
              [] [] x_dated ENOSPC) as [Hm Hin].
  - vm_compute. reflexivity.
  - vm_compute. reflexivity.
  - vm_compute. reflexivity.
  - split; [exact Hin|]. rewrite Hm. reflexivity.
Defined.

Lemma C8_copy_onto_itself_witness :
  copyFile single (abs ["in"; "x.jpg"]) (mkPath false ["in"; "x.jpg"]) = (single, None).
Proof.
  apply (proj2 (proj2 (C8_copy_onto_itself single (abs ["in"; "x.jpg"])
                         (mkPath false ["in"; "x.jpg"])
                         (info_of "x.jpg" (File Regular 3 rw))
                         (info_of "x.jpg" (File Regular 3 rw))
                         eq_refl eq_refl eq_refl)));
    reflexivity.
Defined.

(** Why the guard is there: without it the file would be truncated before it
    is read. *)
Remark copyFileContents_onto_itself :
  contents single (abs ["in"; "x.jpg"]) = Some jpeg_a /\
  contents (fst (copyFileContents single (abs ["in"; "x.jpg"]) (abs ["in"; "x.jpg"])))
           (abs ["in"; "x.jpg"]) = Some [].
Proof. split; run. Qed.

Lemma C9_non_regular_is_refused_witness :
  (exists e, copyFile single (abs ["in"]) (abs ["out"; "in"]) = (single, Some e)) /\
  (exists e, copyFile single (abs ["in"; "x.jpg"]) (abs ["out"]) = (single, Some e)).
Proof.
  split.
  - apply C9_non_regular_is_refused. left. reflexivity.
  - apply C9_non_regular_is_refused. right.
    exists (info_of "out" (Dir 4 rw FNil)). split; reflexivity.
Defined.

(** With [-dry-run=true] and with [-dry-run=false] the image is copied. *)
Lemma C10_dry_run_is_ignored_witness :
  main (mkFlags (Some (abs ["in"])) (Some (abs ["out"])) (Some true)) single =
  main (mkFlags (Some (abs ["in"])) (Some (abs ["out"])) (Some false)) single /\
  contents (fst (main (mkFlags (Some (abs ["in"])) (Some (abs ["out"])) (Some true))
                      single)) out_x = Some jpeg_a.
Proof.
  split.
  - apply C10_dry_run_is_ignored; reflexivity.
  - vm_compute. reflexivity.
Defined.

(** * What stays in the tree *)

Lemma same_node_refl (c : tree) : same_node c c.
Proof. repeat split. Qed.

Lemma same_node_trans (a b c : tree) :
  same_node a b -> same_node b c -> same_node a c.
Proof.
  unfold same_node. intros (A1 & A2 & A3 & A4) (B1 & B2 & B3 & B4).
  repeat split; congruence.
Qed.

(** A file has no other node of the same kind, inode and permissions. *)
Lemma same_node_file (ty : ftype) (i : nat) (pm : perm) (c' : tree) :
  same_node (File ty i pm) c' -> c' = File ty i pm.
Proof.
  unfold same_node. simpl. intros (D & R & I & P).
  destruct c' as [ty' i' pm' | i' pm' es]; simpl in *; [|discriminate].
  subst. destruct ty, ty'; try reflexivity; discriminate.
Qed.

Lemma keeps_refl (t : tree) : keeps t t.
Proof. intros q c H. exists c. split; [exact H | apply same_node_refl]. Qed.

Lemma keeps_trans (a b c : tree) : keeps a b -> keeps b c -> keeps a c.
Proof.
  intros Hab Hbc q x H.
  destruct (Hab q x H) as (y & Hy & Sy).
  destruct (Hbc q y Hy) as (z & Hz & Sz).
  exists z. split; [exact Hz | exact (same_node_trans _ _ _ Sy Sz)].
Qed.

Lemma keeps_file (t t' : tree) (q : list string) (ty : ftype) (i : nat) (pm : perm) :
  keeps t t' -> lookup t q = Ok (File ty i pm) -> lookup t' q = Ok (File ty i pm).
Proof.
  intros K H. destruct (K q _ H) as (c' & Hc & S).
  rewrite (same_node_file _ _ _ _ S) in Hc. exact Hc.
Qed.

(** Replacing an entry by a node that keeps it. *)
Lemma keeps_set_entry (i : nat) (pm : perm) (es : forest) (nm : string)
      (c c1 : tree) :
  find_entry es nm = Some c -> keeps c c1 ->
  keeps (Dir i pm es) (Dir i pm (set_entry es nm c1)).
Proof.
  intros E K q x H. destruct q as [|n q].
  - simpl in H. injection H as <-. eexists. split; [reflexivity|]. repeat split.
  - simpl in H |- *.
    destruct (String.eqb nm n) eqn:Hn.
    + apply String.eqb_eq in Hn. subst n.
      rewrite E in H. rewrite (find_entry_set_same _ _ _ _ E). exact (K q x H).
    + rewrite (find_entry_set_other _ _ _ _ Hn).
      destruct (find_entry es n) as [y|]; [|discriminate].
      exists x. split; [exact H | apply same_node_refl].
Qed.

(** Adding an entry under a name that is not listed. *)
Lemma keeps_add_entry (i : nat) (pm : perm) (es : forest) (nm : string) (c1 : tree) :
  keeps (Dir i pm es) (Dir i pm (add_entry es nm c1)).
Proof.
  intros q x H. destruct q as [|n q].
  - simpl in H. injection H as <-. eexists. split; [reflexivity|]. repeat split.
  - simpl in H |- *.
    destruct (find_entry es n) as [y|] eqn:E; [|discriminate].
    rewrite (find_entry_add_found _ nm _ c1 _ E).
    exists x. split; [exact H | apply same_node_refl].
Qed.

Lemma mkdir_all_keeps (p : list string) : forall (t : tree) (i : nat),
  keeps t (fst (mkdir_all t p i)).
Proof.
  induction p as [|nm p IH]; simpl; intros t i.
  - destruct (is_dir t); apply keeps_refl.
  - destruct t as [ty j pm | j pm es]; [apply keeps_refl|].
    destruct (find_entry es nm) as [c|] eqn:E.
    + specialize (IH c i). destruct (mkdir_all c p i) as [c' err]. simpl in *.
      exact (keeps_set_entry _ _ _ _ _ _ E IH).
    + destruct (p_write pm); [|apply keeps_refl].
      destruct (mkdir_all (Dir i perm_0755 FNil) p (S i)) as [c' err]. simpl.
      apply keeps_add_entry.
Qed.

Lemma add_file_keeps (p : list string) : forall (t t' : tree) (i : nat),
  add_file t p i = Ok t' -> keeps t t'.
Proof.
  induction p as [|nm p IH]; intros t t' i H.
  - destruct t; discriminate.
  - destruct t as [ty j pm | j pm es]; [discriminate|].
    simpl in H. destruct p as [|nm' p'].
    + destruct (find_entry es nm); [discriminate|].
      destruct (p_write pm); [|discriminate].
      injection H as <-. apply keeps_add_entry.
    + destruct (find_entry es nm) as [c|] eqn:E; [|discriminate].
      destruct (add_file c (nm' :: p') i) as [c'|e] eqn:A; [|discriminate].
      injection H as <-.
      exact (keeps_set_entry _ _ _ _ _ _ E (IH _ _ _ A)).
Qed.

(** Path resolution fails in two ways only. *)
Lemma lookup_error (p : list string) : forall (t : tree) (e : error),
  lookup t p = Err e -> e = ENOENT \/ e = ENOTDIR.
Proof.
  induction p as [|nm p IH]; simpl; intros t e H; [discriminate|].
  destruct t as [ty i pm | i pm es].
  - injection H as <-. auto.
  - destruct (find_entry es nm) as [c|]; [eauto|].
    injection H as <-. auto.
Qed.

(** What is not missing in [t] is not missing in a tree that keeps [t]:
    a path that is blocked by a file stays blocked by it. *)
Lemma keeps_not_missing (q : list string) : forall (t t' : tree),
  keeps t t' -> lookup t q <> Err ENOENT -> lookup t' q <> Err ENOENT.
Proof.
  intros t t' K H.
  destruct (lookup t q) as [c|e] eqn:L.
  - destruct (K q c L) as (c' & Hc & _). rewrite Hc. discriminate.
  - destruct (lookup_error q t e L) as [-> | ->]; [congruence|].
    clear H. revert t t' K L.
    induction q as [|n q IH]; intros t t' K L; [discriminate|].
    destruct (K [] t eq_refl) as (r' & Hr & Sr). simpl in Hr. injection Hr as <-.
    destruct t as [ty i pm | i pm es].
    + rewrite (same_node_file _ _ _ _ Sr). discriminate.
    + simpl in L. destruct (find_entry es n) as [c|] eqn:E; [|discriminate].
      destruct (K [n] c) as (c' & Hc' & _); [simpl; rewrite E; reflexivity|].
      destruct t' as [ty' i' pm' | i' pm' es']; [discriminate|].
      simpl in Hc' |- *.
      destruct (find_entry es' n) as [y|] eqn:E'; [|discriminate].
      injection Hc' as ->.
      apply (IH c c'); [|exact L].
      intros q0 x Hx.
      destruct (K (n :: q0) x) as (x' & Hx' & Sx); [simpl; rewrite E; exact Hx|].
      simpl in Hx'. rewrite E' in Hx'. eauto.
Qed.

(** * What the run keeps *)

Lemma grows_intro (w w' : World) :
  cwd w' = cwd w -> getwd_ok w' = getwd_ok w ->
  keeps (root w) (root w') -> stderr w' = stderr w -> grows w w'.
Proof.
  intros C G K S. repeat split; try assumption.
  exists []. rewrite S, app_nil_r. reflexivity.
Qed.

Lemma grows_refl (w : World) : grows w w.
Proof. apply grows_intro; auto using keeps_refl. Qed.

Lemma grows_trans (a b c : World) : grows a b -> grows b c -> grows a c.
Proof.
  intros (C1 & G1 & K1 & m1 & S1) (C2 & G2 & K2 & m2 & S2).
  repeat split; try congruence.
  - exact (keeps_trans _ _ _ K1 K2).
  - exists (m1 ++ m2). rewrite S2, S1, app_assoc. reflexivity.
Qed.

Lemma grows_Fprint (w : World) (m : message) : grows w (Fprint_Stderr w m).
Proof.
  repeat split; try apply keeps_refl. exists [m]. reflexivity.
Qed.

Lemma os_MkdirAll_grows (w : World) (p : fpath) : grows w (fst (os_MkdirAll w p)).
Proof.
  unfold os_MkdirAll.
  pose proof (mkdir_all_keeps (resolve w p) (root w) (S (max_ino (root w)))) as K.
  destruct (mkdir_all _ _ _) as [t' err]. simpl in *.
  apply grows_intro; auto.
Qed.

(** Making directories writes no byte. *)
Lemma os_MkdirAll_store (w : World) (p : fpath) :
  store (fst (os_MkdirAll w p)) = store w /\ free (fst (os_MkdirAll w p)) = free w.
Proof.
  unfold os_MkdirAll. destruct (mkdir_all _ _ _) as [t' err]. split; reflexivity.
Qed.

Section Frame.
Context {X : Extern}.

Lemma copyFileContents_grows (w : World) (src dst : fpath) :
  grows w (fst (copyFileContents w src dst)).
Proof.
  unfold copyFileContents.
  destruct (os_Open w src) as [f|e]; [|apply grows_refl].
  unfold os_Create.
  destruct (lookup (root w) (resolve w dst)) as [t|e].
  - destruct (is_dir t); [apply grows_refl|].
    destruct (p_write (node_perm t)); [|apply grows_refl].
    unfold io_Copy.
    destruct (is_regular t);
      (destruct (file_data _ f) as [data|e];
       [simpl; destruct (_ <? _) | ]);
      apply grows_intro; auto using keeps_refl.
  - destruct (os_IsNotExist e); [|apply grows_refl].
    destruct (add_file _ _ _) as [t'|e'] eqn:A; [|apply grows_refl].
    unfold io_Copy.
    destruct (file_data _ f) as [data|e0];
      [simpl; destruct (_ <? _) | ];
      apply grows_intro; simpl; eauto using add_file_keeps.
Qed.

Lemma copyFile_grows (w : World) (src dst : fpath) :
  grows w (fst (copyFile w src dst)).
Proof.
  unfold copyFile.
  destruct (os_Stat w src) as [sfi|e]; [|apply grows_refl].
  destruct (negb (fi_IsRegular sfi)); [apply grows_refl|].
  destruct (os_Stat w dst) as [dfi|e].
  - destruct (negb (fi_IsRegular dfi)); [apply grows_refl|].
    destruct (os_SameFile sfi dfi); [apply grows_refl|].
    apply copyFileContents_grows.
  - destruct (negb (os_IsNotExist e)); [apply grows_refl|].
    apply copyFileContents_grows.
Qed.

(** [copyFileContents] writes to one inode only. *)
Lemma copyFileContents_store (w : World) (src dst : fpath) (k : nat) :
  k <> dst_ino w dst ->
  store (fst (copyFileContents w src dst)) k = store w k.
Proof.
  unfold dst_ino, copyFileContents.
  destruct (os_Open w src) as [f|e]; [|reflexivity].
  unfold os_Create.
  destruct (lookup (root w) (resolve w dst)) as [t|e]; intros Hk.
  - destruct (is_dir t); [reflexivity|].
    destruct (p_write (node_perm t)); [|reflexivity].
    unfold io_Copy, f_ino.
    destruct (is_regular t);
      (destruct (file_data _ f) as [data|e]; [|simpl]);
      try (simpl; destruct (_ <? _); simpl);
      rewrite ?(upd_other _ _ _ _ Hk); reflexivity.
  - destruct (os_IsNotExist e); [|reflexivity].
    destruct (add_file _ _ _) as [t'|e'] eqn:A; [|reflexivity].
    unfold io_Copy, f_ino.
    destruct (file_data _ f) as [data|e0]; [|simpl];
      try (simpl; destruct (_ <? _); simpl);
      rewrite ?(upd_other _ _ _ _ Hk); reflexivity.
Qed.

Lemma copyFile_store (w : World) (src dst : fpath) (k : nat) :
  k <> dst_ino w dst ->
  store (fst (copyFile w src dst)) k = store w k.
Proof.
  intros Hk. unfold copyFile.
  destruct (os_Stat w src) as [sfi|e]; [|reflexivity].
  destruct (negb (fi_IsRegular sfi)); [reflexivity|].
  destruct (os_Stat w dst) as [dfi|e].
  - destruct (negb (fi_IsRegular dfi)); [reflexivity|].
    destruct (os_SameFile sfi dfi); [reflexivity|].
    apply copyFileContents_store, Hk.
  - destruct (negb (os_IsNotExist e)); [reflexivity|].
    apply copyFileContents_store, Hk.
Qed.

Lemma main_folders_grows (dest : fpath) (images : list Image) : forall w : World,
  grows w (fst (main_folders dest images w)).
Proof.
  induction images as [|image rest IH]; simpl; intros w; [apply grows_refl|].
  destruct (IsNotExist _); [|apply IH].
  pose proof (os_MkdirAll_grows w
    (filepath_Join dest (Sprintf_date (year image) (month image) (day image)))) as G.
  destruct (os_MkdirAll w _) as [w1 [e|]]; simpl in G.
  - simpl. exact (grows_trans _ _ _ G (grows_Fprint _ _)).
  - exact (grows_trans _ _ _ G (IH w1)).
Qed.

Lemma main_copy_grows (dest : fpath) (images : list Image) : forall w : World,
  grows w (main_copy dest images w).
Proof.
  induction images as [|image rest IH]; simpl; intros w; [apply grows_refl|].
  pose proof (copyFile_grows w (path image)
    (filepath_Join dest
       (Sprintf_date_name (year image) (month image) (day image) (name image)))) as G.
  destruct (copyFile w (path image) _) as [w1 [e|]]; simpl in G.
  - exact (grows_trans _ _ _ G (grows_trans _ _ _ (grows_Fprint _ _) (IH _))).
  - exact (grows_trans _ _ _ G (IH w1)).
Qed.
End Frame.

(** * Properties of the five functions *)

Lemma stat_not_missing (w : World) (p : fpath) :
  IsNotExist (err_of (os_Stat w p)) = false <->
  lookup (root w) (resolve w p) <> Err ENOENT.
Proof.
  unfold os_Stat. destruct (lookup (root w) (resolve w p)) as [t|e]; simpl.
  - split; [discriminate | reflexivity].
  - destruct e; simpl; split; congruence.
Qed.

Lemma grows_not_missing (w w' : World) (p : fpath) :
  grows w w' ->
  IsNotExist (err_of (os_Stat w p)) = false ->
  IsNotExist (err_of (os_Stat w' p)) = false.
Proof.
  intros (C & _ & K & _) H. apply stat_not_missing. apply stat_not_missing in H.
  unfold resolve in *. rewrite C. exact (keeps_not_missing _ _ _ K H).
Qed.

Section More.
Context {X : Extern}.

(** X1.  From the first to the last statement of [main] nothing is removed,
    moved or retyped: a path that reached a node before the run reaches a
    node of the same kind, inode and permissions after it, and a file is the
    very same file; the working directory is the same; and the error stream
    is the old one with the messages of the run after it. *)
Theorem main_removes_nothing (fl : Flags) (w : World) :
  (forall q c, lookup (root w) q = Ok c ->
               exists c', lookup (root (fst (main fl w))) q = Ok c' /\ same_node c c') /\
  (forall q ty i pm, lookup (root w) q = Ok (File ty i pm) ->
                     lookup (root (fst (main fl w))) q = Ok (File ty i pm)) /\
  cwd (fst (main fl w)) = cwd w /\
  exists msgs, stderr (fst (main fl w)) = stderr w ++ msgs.
Proof.
  assert (G : grows w (fst (main fl w))).
  { unfold main.
    cbn [required main_required seen String.eqb Ascii.eqb Bool.eqb].
    destruct (negb (is_some (flag_destination fl))).
    - exact (grows_trans _ _ _ (grows_Fprint _ _) (grows_Fprint _ _)).
    - destruct (os_Open w (sourceFlag fl)) as [file|e]; [|apply grows_Fprint].
      cbn [file_Stat].
      destruct (negb (fi_IsDir (f_info file))); [apply grows_Fprint|].
      destruct (getImages w (sourceFlag fl)) as [images err].
      set (w1 := match err with
                 | Some e => Fprint_Stderr w (MsgWalk (sourceFlag fl) e)
                 | None => w
                 end).
      assert (G1 : grows w w1)
        by (unfold w1; destruct err; [apply grows_Fprint | apply grows_refl]).
      pose proof (main_folders_grows (destFlag fl) (main_dates w1 images) w1) as G2.
      destruct (main_folders (destFlag fl) (main_dates w1 images) w1)
        as [w2 [code|]]; simpl in *.
      + exact (grows_trans _ _ _ G1 G2).
      + exact (grows_trans _ _ _ G1
                 (grows_trans _ _ _ G2 (main_copy_grows _ _ _))). }
  destruct G as (C & _ & K & S).
  split; [exact K|]. split; [|split; assumption].
  intros q ty i pm H. exact (keeps_file _ _ _ _ _ _ K H).
Qed.

Lemma main_folders_store (dest : fpath) (images : list Image) : forall w : World,
  store (fst (main_folders dest images w)) = store w /\
  free (fst (main_folders dest images w)) = free w.
Proof.
  induction images as [|image rest IH]; simpl; intros w; [split; reflexivity|].
  destruct (IsNotExist _); [|apply IH].
  pose proof (os_MkdirAll_store w
    (filepath_Join dest (Sprintf_date (year image) (month image) (day image)))) as S.
  destruct (os_MkdirAll w _) as [w1 [e|]]; simpl in S.
  - exact S.
  - destruct (IH w1) as [A B]. destruct S as [S1 S2]. split; congruence.
Qed.

Lemma main_folders_nothing_missing (dest : fpath) (images : list Image) :
  forall w : World,
    Forall (fun image => IsNotExist (err_of (os_Stat w (date_dir dest image))) = false)
           images ->
    main_folders dest images w = (w, None).
Proof.
  induction images as [|image rest IH]; simpl; intros w F; [reflexivity|].
  inversion F as [|? ? H1 H2]; subst. unfold date_dir in H1. rewrite H1. auto.
Qed.

(** X2.  A placement loop that does not exit writes no byte, and after it
    [os.Stat] finds none of the date directories of the batch missing; so a
    second placement over the same batch changes nothing. *)
Theorem main_folders_places (dest : fpath) (images : list Image) (w w' : World) :
  main_folders dest images w = (w', None) ->
  store w' = store w /\ free w' = free w /\
  Forall (fun image => IsNotExist (err_of (os_Stat w' (date_dir dest image))) = false)
         images /\
  main_folders dest images w' = (w', None).
Proof.
  intros H.
  pose proof (main_folders_store dest images w) as S. rewrite H in S. simpl in S.
  destruct S as [S1 S2].
  assert (F : Forall (fun image =>
                        IsNotExist (err_of (os_Stat w' (date_dir dest image))) = false)
                     images).
  { clear S1 S2. revert w H.
    induction images as [|image rest IH]; intros w H; [constructor|].
    simpl in H. fold (date_dir dest image) in H.
    destruct (IsNotExist (err_of (os_Stat w (date_dir dest image)))) eqn:E.
    - pose proof (os_MkdirAll_grows w (date_dir dest image)) as G.
      unfold os_MkdirAll in H, G.
      destruct (mkdir_all (root w) (resolve w (date_dir dest image))
                          (S (max_ino (root w)))) as [t' err] eqn:M.
      simpl in G. destruct err as [e|]; [discriminate|].
      pose proof (main_folders_grows dest rest (set_root w t')) as G'.
      rewrite H in G'. simpl in G'.
      constructor; [|exact (IH _ H)].
      apply (grows_not_missing (set_root w t') w' _ G').
      apply stat_not_missing.
      destruct (mkdir_all_dir _ _ _ _ M) as (c & Lc & _).
      change (resolve (set_root w t') (date_dir dest image))
        with (resolve w (date_dir dest image)).
      simpl. rewrite Lc. discriminate.
    - pose proof (main_folders_grows dest rest w) as G'.
      rewrite H in G'. simpl in G'.
      constructor; [|exact (IH _ H)].
      exact (grows_not_missing w w' _ G' E). }
  repeat split; try assumption.
  exact (main_folders_nothing_missing dest images w' F).
Qed.

(** X3.  Whatever [copyFile] returns, the source has the bytes it had. *)
Theorem copyFile_source_untouched (w : World) (src dst : fpath) :
  contents (fst (copyFile w src dst)) src = contents w src.
Proof.
  destruct (lookup (root w) (resolve w src)) as [ts|e] eqn:Ls.
  - destruct ts as [[|] i pi | i pi es].
    + destruct (Nat.eq_dec i (dst_ino w dst)) as [E|N].
      * (* the destination is the source: nothing is written *)
        assert (W : fst (copyFile w src dst) = w).
        { unfold dst_ino in E. unfold copyFile, os_Stat. rewrite Ls. simpl.
          destruct (lookup (root w) (resolve w dst)) as [td|e] eqn:Ld.
          - simpl. destruct (is_regular td); simpl; [|reflexivity].
            unfold os_SameFile. simpl. rewrite <- E, Nat.eqb_refl. reflexivity.
          - pose proof (lookup_ino_le _ _ _ Ls) as Hle. simpl in Hle. lia. }
        rewrite W. reflexivity.
      * destruct (copyFile_grows w src dst) as (C & _ & K & _).
        unfold contents, resolve. rewrite C. fold (resolve w src).
        rewrite (keeps_file _ _ _ _ _ _ K Ls), Ls.
        rewrite (copyFile_store w src dst i N). reflexivity.
    + unfold copyFile, os_Stat. rewrite Ls. reflexivity.
    + unfold copyFile, os_Stat. rewrite Ls. reflexivity.
  - unfold copyFile, os_Stat. rewrite Ls. reflexivity.
Qed.

(** X4.  [copyFile] changes the bytes of one file at most: a regular file
    whose inode is not the one of the destination has the bytes it had. *)
Theorem copyFile_other_files_untouched
        (w : World) (src dst q : fpath) (k : nat) (pk : perm) :
  lookup (root w) (resolve w q) = Ok (File Regular k pk) ->
  k <> dst_ino w dst ->
  contents (fst (copyFile w src dst)) q = contents w q.
Proof.
  intros L N.
  destruct (copyFile_grows w src dst) as (C & _ & K & _).
  unfold contents, resolve. rewrite C. fold (resolve w q).
  rewrite (keeps_file _ _ _ _ _ _ K L), L.
  rewrite (copyFile_store w src dst k N). reflexivity.
Qed.

Lemma main_folders_status (dest : fpath) (images : list Image) :
  forall (w w' : World) (code : Z),
    main_folders dest images w = (w', Some code) -> code = 1%Z.
Proof.
  induction images as [|image rest IH]; simpl; intros w w' code H; [discriminate|].
  destruct (IsNotExist _); [|eauto].
  destruct (os_MkdirAll w _) as [w1 [e|]]; [|eauto].
  injection H as _ <-. reflexivity.
Qed.


(** X6.  Two records with valid dates and names of one element are copied
    to the same path only when they have the same date and the same name, and
    are placed in the same directory only when they have the same date. *)
Theorem date_paths_injective (dest : fpath) (a b : Image) :
  valid_date (year a) (month a) (day a) ->
  valid_date (year b) (month b) (day b) ->
  (date_dir dest a = date_dir dest b ->
   year a = year b /\ month a = month b /\ day a = day b) /\
  (entry_name (name a) -> entry_name (name b) ->
   date_file dest a = date_file dest b ->
   year a = year b /\ month a = month b /\ day a = day b /\ name a = name b).
Proof.
  intros (Ya & Ma & Da) (Yb & Mb & Db).
  destruct (fmt_0d_year _ Ya) as (_ & Vya & Eya).
  destruct (fmt_0d_year _ Yb) as (_ & Vyb & Eyb).
  destruct (fmt_0d_two (month a) ltac:(lia)) as (_ & Vma & Ema).
  destruct (fmt_0d_two (month b) ltac:(lia)) as (_ & Vmb & Emb).
  destruct (fmt_0d_two (day a) ltac:(lia)) as (_ & Vda & Eda).
  destruct (fmt_0d_two (day b) ltac:(lia)) as (_ & Vdb & Edb).
  assert (Fields : fmt_0d 4 (year a) = fmt_0d 4 (year b) ->
                   fmt_0d 2 (month a) = fmt_0d 2 (month b) ->
                   fmt_0d 2 (day a) = fmt_0d 2 (day b) ->
                   year a = year b /\ month a = month b /\ day a = day b).
  { intros Hy Hm Hd. rewrite Hy in Vya. rewrite Hm in Vma. rewrite Hd in Vda.
    repeat split; congruence. }
  split.
  - unfold date_dir. rewrite !Join_Sprintf_date by assumption.
    intros H. injection H as H. apply app_inv_head in H.
    injection H as Hy Hm Hd. auto.
  - intros Na Nb. unfold date_file.
    rewrite !Join_Sprintf_date_name by assumption.
    intros H. injection H as H. apply app_inv_head in H.
    injection H as Hy Hm Hd Hn.
    destruct (Fields Hy Hm Hd) as (A & B & C). auto.
Qed.

(** X7.  The date loop keeps the batch as it is but for the dates: as many
    records, in the same order, each with the name and the path it had; and
    running it again over its result changes nothing. *)
Theorem main_dates_keeps_records (w : World) (images : list Image) :
  List.length (main_dates w images) = List.length images /\
  map name (main_dates w images) = map name images /\
  map path (main_dates w images) = map path images /\
  main_dates w (main_dates w images) = main_dates w images.
Proof.
  assert (G : forall image, name (fst (getDate w image)) = name image /\
                            path (fst (getDate w image)) = path image /\
                            fst (getDate w (fst (getDate w image)))
                            = fst (getDate w image)).
  { intros image. unfold getDate.
    destruct (os_Open w (path image)) as [f|e] eqn:O;
      [|simpl; rewrite O; repeat split].
    destruct (file_data w f) as [bytes|e] eqn:F;
      [|simpl; rewrite O, F; repeat split].
    destruct (exif_Decode bytes) as [x|e] eqn:D;
      [|simpl; rewrite O, F, D; repeat split].
    destruct (Exif_DateTime x) as [date|e] eqn:T;
      simpl; rewrite O, F, D, T; repeat split. }
  rewrite !main_dates_map. split; [apply length_map|].
  rewrite !map_map. repeat split; apply map_ext; intros image; apply G.
Qed.

Lemma walkFn_absolute (w : World) (p : fpath) (info : FileInfo)
      (err : option error) (acc : list Image) :
  Forall (fun image => p_abs (path image) = true) acc ->
  Forall (fun image => p_abs (path image) = true)
         (fst (getImages_walkFn w p info err acc)).
Proof.
  intros H. unfold getImages_walkFn.
  destruct err; [exact H|].
  destruct (fi_IsDir info); [exact H|].
  destruct (os_Open w p) as [f|e]; [|exact H].
  cbv zeta. destruct (filetype_IsImage _); [|exact H].
  unfold filepath_Abs.
  destruct (p_abs p) eqn:A.
  - simpl. apply Forall_app. split; [exact H|]. constructor; [exact A|constructor].
  - destruct (getwd_ok w); [|exact H].
    simpl. apply Forall_app. split; [exact H|]. constructor; [reflexivity|constructor].
Qed.

(** X8.  Whatever the tree is, every record that [getImages] returns has an
    absolute path and no date. *)
Theorem getImages_records (w : World) (src : fpath) :
  Forall (fun image => p_abs (path image) = true /\ undated image)
         (fst (getImages w src)).
Proof.
  apply Forall_and; [|apply getImages_undated].
  unfold getImages, filepath_Walk.
  assert (H : Forall (fun image => p_abs (path image) = true)
                (fst (match os_Lstat w src, lookup (root w) (resolve w src) with
                      | Ok info, Ok t =>
                          walk (getImages_walkFn w) t src (fi_Name info) []
                      | Err e, _ | _, Err e =>
                          getImages_walkFn w src nil_FileInfo (Some e) []
                      end))).
  { destruct (os_Lstat w src) as [info|e].
    - destruct (lookup (root w) (resolve w src)) as [t|e].
      + apply (walk_invariant _ (getImages_walkFn w)
                 (Forall (fun image => p_abs (path image) = true)));
          [intros; apply walkFn_absolute; assumption | constructor].
      + apply walkFn_absolute. constructor.
    - apply walkFn_absolute. constructor. }
  destruct (match os_Lstat w src, lookup (root w) (resolve w src) with
            | Ok info, Ok t => _ | Err e, _ | _, Err e => _ end) as [s1 err].
  destruct err as [e|]; simpl in *.
  - destruct (is_SkipDir e); [exact H | constructor].
  - exact H.
Qed.

(** X9.  When the source cannot be reached, [getImages] returns no record
    and the error of [Lstat]. *)
Theorem getImages_missing_source (w : World) (src : fpath) (e : error) :
  os_Lstat w src = Err e -> getImages w src = ([], Some e).
Proof.
  unfold getImages, filepath_Walk, os_Lstat, os_Stat.
  destruct (lookup (root w) (resolve w src)) as [t|e'] eqn:L; [discriminate|].
  intros H. injection H as ->. simpl.
  destruct (lookup_error _ _ _ L) as [-> | ->]; reflexivity.
Qed.
End More.

(** * When the copier succeeds, and what it leaves when it does not *)

Lemma add_file_error (p : list string) : forall (t : tree) (i : nat) (e : error),
  add_file t p i = Err e ->
  e = ENOENT \/ e = ENOTDIR \/ e = EISDIR \/ e = EACCES.
Proof.
  induction p as [|nm p IH]; intros t i e H.
  - destruct t; simpl in H; injection H as <-; auto.
  - destruct t as [ty j pm | j pm es]; [injection H as <-; auto|].
    simpl in H. destruct p as [|nm' p'].
    + destruct (find_entry es nm); [injection H as <-; auto|].
      destruct (p_write pm); [discriminate | injection H as <-; auto].
    + destruct (find_entry es nm) as [c|]; [|injection H as <-; auto].
      destruct (add_file c (nm' :: p') i) as [c'|e'] eqn:A; [discriminate|].
      injection H as <-. eauto.
Qed.

(** A file can be linked in a writable directory that does not list its
    name. *)
Lemma add_file_ok (q : list string) :
  forall (t : tree) (j : nat) (pm : perm) (es : forest) (nm : string) (i : nat),
    lookup t q = Ok (Dir j pm es) -> p_write pm = true -> find_entry es nm = None ->
    exists t', add_file t (q ++ [nm]) i = Ok t'.
Proof.
  induction q as [|n q IH]; intros t j pm es nm i L W E.
  - simpl in L. injection L as ->. simpl. rewrite E, W. eauto.
  - destruct t as [ty j0 pm0 | j0 pm0 es0]; [discriminate|].
    simpl in L. destruct (find_entry es0 n) as [c|] eqn:E0; [|discriminate].
    destruct (IH c j pm es nm i L W E) as (c' & A).
    change ((n :: q) ++ [nm]) with (n :: (q ++ [nm])).
    destruct (q ++ [nm]) as [|n1 r] eqn:Q.
    + destruct q; discriminate.
    + simpl. rewrite E0. simpl in A. rewrite A. eauto.
Qed.

Section Outcome.
Context {X : Extern}.

(** Overwriting a regular file that is not the source: it takes a readable
    source, a writable destination, and room for the source once the bytes
    of the destination are given back. *)
Lemma copyFile_overwrite (w : World) (src dst : fpath) (i j : nat) (pi pj : perm) :
  lookup (root w) (resolve w src) = Ok (File Regular i pi) ->
  lookup (root w) (resolve w dst) = Ok (File Regular j pj) ->
  i <> j -> p_read pi = true -> p_write pj = true ->
  List.length (store w i) <= free w + List.length (store w j) ->
  exists w', copyFile w src dst = (w', None) /\
             root w' = root w /\ cwd w' = cwd w /\
             store w' j = store w i /\ store w' i = store w i.
Proof.
  intros Ls Ld Hij R W Hfree.
  unfold copyFile, os_Stat. rewrite Ls, Ld. simpl.
  unfold os_SameFile. simpl.
  destruct (Nat.eqb i j) eqn:E; [apply Nat.eqb_eq in E; contradiction|].
  unfold copyFileContents, os_Open, os_Create. rewrite Ls, Ld. simpl.
  rewrite R, W. unfold io_Copy, file_data, f_ino. simpl.
  rewrite (upd_other _ _ _ _ Hij).
  assert (M : Nat.min (List.length (store w i)) (free w + List.length (store w j))
              = List.length (store w i)) by lia.
  rewrite M, Nat.ltb_irrefl, firstn_all. unfold file_Sync.
  eexists. split; [reflexivity|]. simpl.
  rewrite !upd_same, overwrite_empty, !(upd_other _ _ _ _ Hij). auto.
Qed.

(** What a successful [copyFile] leaves: two regular files, which are one
    file or a readable source and a writable destination with the same
    bytes. *)
Lemma copyFile_ok_leaves (w w1 : World) (src dst : fpath) :
  copyFile w src dst = (w1, None) ->
  cwd w1 = cwd w /\
  exists i j pi pj,
    lookup (root w1) (resolve w src) = Ok (File Regular i pi) /\
    lookup (root w1) (resolve w dst) = Ok (File Regular j pj) /\
    (i = j \/
     (i <> j /\ p_read pi = true /\ p_write pj = true /\ store w1 j = store w1 i)).
Proof.
  unfold copyFile, os_Stat.
  destruct (lookup (root w) (resolve w src)) as [ts|e] eqn:Ls; [|discriminate].
  destruct ts as [[|] i pi | i pi es]; simpl; try discriminate.
  destruct (lookup (root w) (resolve w dst)) as [td|e] eqn:Ld.
  - destruct td as [[|] j pj | j pj es]; simpl; try discriminate.
    unfold os_SameFile. simpl.
    destruct (Nat.eqb i j) eqn:Eij.
    + apply Nat.eqb_eq in Eij. subst j. intros H. injection H as <-.
      split; [reflexivity|]. exists i, i, pi, pj. auto.
    + apply Nat.eqb_neq in Eij.
      unfold copyFileContents, os_Open, os_Create. rewrite Ls, Ld. simpl.
      destruct (p_read pi) eqn:R; [|discriminate].
      destruct (p_write pj) eqn:W; [|discriminate].
      unfold io_Copy, file_data, f_ino. simpl.
      rewrite (upd_other _ _ _ _ Eij).
      destruct (Nat.min _ _ <? _) eqn:E; [discriminate|].
      unfold file_Sync. intros H. injection H as <-. simpl.
      split; [reflexivity|]. exists i, j, pi, pj.
      rewrite (copy_all _ _ E), !upd_same, overwrite_empty.
      rewrite !(upd_other _ _ _ _ Eij). auto 10.
  - destruct e; simpl; try discriminate.
    unfold copyFileContents, os_Open, os_Create. rewrite Ls, Ld. simpl.
    destruct (p_read pi) eqn:R; [|discriminate].
    destruct (add_file _ _ _) as [t'|e] eqn:A; [|discriminate].
    assert (Hi : i <> S (max_ino (root w))).
    { pose proof (lookup_ino_le _ _ _ Ls) as Hle. simpl in Hle. lia. }
    unfold io_Copy, file_data, f_ino. simpl.
    rewrite (upd_other _ _ _ _ Hi).
    destruct (Nat.min _ _ <? _) eqn:E; [discriminate|].
    unfold file_Sync. intros H. injection H as <-. simpl.
    split; [reflexivity|].
    exists i, (S (max_ino (root w))), pi, perm_0666.
    rewrite (copy_all _ _ E), !upd_same, overwrite_empty.
    rewrite !(upd_other _ _ _ _ Hi).
    split; [exact (add_file_lookup_file _ _ _ _ _ _ _ _ A Ls)|].
    split; [exact (add_file_lookup_new _ _ _ _ A)|].
    right. auto.
Qed.

(** X10.  A copy that returned no error can be done again: the second
    [copyFile] returns no error, leaves the tree as it is, and source and
    destination have the bytes they had after the first. *)
Theorem copyFile_twice (w w1 : World) (src dst : fpath) :
  copyFile w src dst = (w1, None) ->
  exists w2,
    copyFile w1 src dst = (w2, None) /\
    root w2 = root w1 /\
    contents w2 dst = contents w1 dst /\
    contents w2 src = contents w1 src.
Proof.
  intros H.
  destruct (copyFile_ok_leaves _ _ _ _ H)
    as (C & i & j & pi & pj & Ls & Ld & [E | (N & R & W & S)]).
  - subst j. exists w1.
    assert (Ls1 : lookup (root w1) (resolve w1 src) = Ok (File Regular i pi))
      by (unfold resolve in *; rewrite C; exact Ls).
    assert (Ld1 : lookup (root w1) (resolve w1 dst) = Ok (File Regular i pj))
      by (unfold resolve in *; rewrite C; exact Ld).
    split; [|auto].
    unfold copyFile, os_Stat. rewrite Ls1, Ld1. simpl.
    unfold os_SameFile. simpl. rewrite Nat.eqb_refl. reflexivity.
  - assert (Ls1 : lookup (root w1) (resolve w1 src) = Ok (File Regular i pi))
      by (unfold resolve in *; rewrite C; exact Ls).
    assert (Ld1 : lookup (root w1) (resolve w1 dst) = Ok (File Regular j pj))
      by (unfold resolve in *; rewrite C; exact Ld).
    destruct (copyFile_overwrite w1 src dst i j pi pj Ls1 Ld1 N R W)
      as (w2 & H2 & Hr & Hc & Hj & Hi); [rewrite S; lia|].
    exists w2. split; [exact H2|]. split; [exact Hr|].
    unfold contents, resolve. rewrite Hr, Hc.
    fold (resolve w1 src). fold (resolve w1 dst).
    rewrite Ls1, Ld1, Hj, Hi, S. auto.
Qed.

(** X11.  When [copyFile] fails for want of space, the destination is a
    regular file that holds a strict prefix of the source, and no byte is
    free on the disk. *)
Theorem copyFile_out_of_space (w w' : World) (src dst : fpath) :
  copyFile w src dst = (w', Some ENOSPC) ->
  exists data n,
    contents w src = Some data /\
    n < List.length data /\
    contents w' dst = Some (firstn n data) /\
    free w' = 0.
Proof.
  unfold copyFile, os_Stat.
  destruct (lookup (root w) (resolve w src)) as [ts|e] eqn:Ls;
    [|destruct (lookup_error _ _ _ Ls) as [-> | ->]; discriminate].
  destruct ts as [[|] i pi | i pi es]; simpl; try discriminate.
  assert (Tail : forall w0 j data,
             store w0 i = data -> store w0 j = [] ->
             forall n, n = Nat.min (List.length data) (free w0) ->
             (n <? List.length data) = true ->
             n < List.length data /\
             upd (store w0) j (overwrite (store w0 j) (firstn n data)) j
               = firstn n data /\
             free w0 - List.length (firstn n data) = 0).
  { intros w0 j data _ Hj n Hn Hlt. apply Nat.ltb_lt in Hlt.
    rewrite upd_same, Hj, overwrite_empty, length_firstn.
    repeat split; [exact Hlt | lia]. }
  destruct (lookup (root w) (resolve w dst)) as [td|e] eqn:Ld.
  - destruct td as [[|] j pj | j pj es]; simpl; try discriminate.
    unfold os_SameFile. simpl.
    destruct (Nat.eqb i j) eqn:Eij; [discriminate|].
    apply Nat.eqb_neq in Eij.
    unfold copyFileContents, os_Open, os_Create. rewrite Ls, Ld. simpl.
    destruct (p_read pi); [|discriminate].
    destruct (p_write pj); [|discriminate].
    unfold io_Copy, file_data, f_ino. simpl.
    rewrite (upd_other _ _ _ _ Eij).
    destruct (Nat.min _ _ <? _) eqn:E; [|discriminate].
    intros H. injection H as <-.
    destruct (Tail (truncate w j) j (store w i)
                   (upd_other _ _ _ _ Eij) (upd_same _ _ _) _ eq_refl E)
      as (Hlt & Hst & Hfree).
    exists (store w i), (Nat.min (List.length (store w i))
                                 (free w + List.length (store w j))).
    unfold contents, resolve. simpl. fold (resolve w src). fold (resolve w dst).
    rewrite Ls, Ld. simpl in Hst, Hfree.
    split; [reflexivity|]. split; [exact Hlt|].
    split; [f_equal; exact Hst | exact Hfree].
  - destruct (lookup_error _ _ _ Ld) as [-> | ->]; simpl; [|discriminate].
    unfold copyFileContents, os_Open, os_Create. rewrite Ls, Ld. simpl.
    destruct (p_read pi); [|discriminate].
    destruct (add_file _ _ _) as [t'|e] eqn:A;
      [|intros H; injection H as _ ->;
        destruct (add_file_error _ _ _ _ A) as [? | [? | [? | ?]]]; discriminate].
    assert (Hi : i <> S (max_ino (root w))).
    { pose proof (lookup_ino_le _ _ _ Ls) as Hle. simpl in Hle. lia. }
    unfold io_Copy, file_data, f_ino. simpl.
    rewrite (upd_other _ _ _ _ Hi).
    destruct (Nat.min _ _ <? _) eqn:E; [|discriminate].
    intros H. injection H as <-.
    destruct (Tail (link_new w t' (S (max_ino (root w)))) (S (max_ino (root w)))
                   (store w i) (upd_other _ _ _ _ Hi) (upd_same _ _ _) _ eq_refl E)
      as (Hlt & Hst & Hfree).
    exists (store w i), (Nat.min (List.length (store w i)) (free w)).
    unfold contents, resolve. simpl. fold (resolve w src). fold (resolve w dst).
    rewrite Ls, (add_file_lookup_new _ _ _ _ A). simpl in Hst, Hfree.
    split; [reflexivity|]. split; [exact Hlt|].
    split; [f_equal; exact Hst | exact Hfree].
Qed.

(** X12.  A copy into a writable directory that does not list the name
    succeeds when the source is a readable regular file and fits on the disk;
    the new file then has the bytes of the source. *)
Theorem copyFile_into_directory
        (w : World) (src dir : fpath) (nm : string)
        (i j : nat) (pi pm : perm) (es : forest) :
  lookup (root w) (resolve w src) = Ok (File Regular i pi) ->
  p_read pi = true ->
  lookup (root w) (resolve w dir) = Ok (Dir j pm es) ->
  p_write pm = true ->
  find_entry es nm = None ->
  List.length (store w i) <= free w ->
  exists w', copyFile w src (path_child dir nm) = (w', None) /\
             contents w' (path_child dir nm) = Some (store w i).
Proof.
  intros Ls R Ldir W E Hfree.
  assert (Ld : lookup (root w) (resolve w (path_child dir nm)) = Err ENOENT).
  { rewrite resolve_child, lookup_app, Ldir. simpl. rewrite E. reflexivity. }
  destruct (add_file_ok _ _ _ _ _ nm (S (max_ino (root w))) Ldir W E) as (t' & A).
  rewrite <- resolve_child in A.
  assert (Hi : i <> S (max_ino (root w))).
  { pose proof (lookup_ino_le _ _ _ Ls) as Hle. simpl in Hle. lia. }
  assert (C : exists w', copyFile w src (path_child dir nm) = (w', None)).
  { unfold copyFile, os_Stat. rewrite Ls, Ld. simpl.
    unfold copyFileContents, os_Open, os_Create. rewrite Ls, Ld. simpl.
    rewrite R, A. unfold io_Copy, file_data, f_ino. simpl.
    rewrite (upd_other _ _ _ _ Hi).
    assert (M : Nat.min (List.length (store w i)) (free w) = List.length (store w i))
      by lia.
    rewrite M, Nat.ltb_irrefl. unfold file_Sync. eauto. }
  destruct C as (w' & C). exists w'. split; [exact C|].
  destruct (copyFile_identical _ _ _ _ C) as (data & Hs & Hd & _).
  unfold contents in Hs. rewrite Ls in Hs. injection Hs as <-. exact Hd.
Qed.
End Outcome.

(** * When the enumerator succeeds, and a source without images *)

Section Readable.
Context {X : Extern}.
Variable w : World.

Lemma walk_readable (t : tree) :
  forall (p : fpath) (nm : string) (acc : list Image),
    distinct_names t = true ->
    all_readable t = true ->
    lookup (root w) (resolve w p) = Ok t ->
    p_abs p = true \/ getwd_ok w = true ->
    snd (walk (getImages_walkFn w) t p nm acc) = None.
Proof.
  induction t using tree_forest_ind with
    (P0 := fun es =>
       forall (p : fpath) (acc : list Image),
         distinct_in es = true ->
         all_readable_in es = true ->
         (forall nm c, member nm c es ->
                       lookup (root w) (resolve w (path_child p nm)) = Ok c) ->
         p_abs p = true \/ getwd_ok w = true ->
         snd (walk_names (getImages_walkFn w) es p acc) = None).
  - intros p nm acc _ R L A. simpl in R |- *.
    unfold getImages_walkFn, os_Open. cbn [info_of fi_IsDir is_dir].
    rewrite L. cbn [node_perm]. rewrite R. cbv zeta.
    destruct (filetype_IsImage _); [|reflexivity].
    unfold filepath_Abs.
    destruct (p_abs p); [reflexivity|].
    destruct A as [A | A]; [discriminate|]. rewrite A. reflexivity.
  - intros p nm acc D R L A. simpl in D, R |- *.
    apply andb_prop in R as [R1 R2]. rewrite R1. simpl.
    apply IHt; try assumption.
    intros n c M. rewrite resolve_child, lookup_app, L. simpl.
    rewrite (member_find es n c D M). reflexivity.
  - reflexivity.
  - intros p acc D R M A. simpl in D, R |- *.
    apply andb_prop in D as [D D3]. apply andb_prop in D as [D1 D2].
    apply andb_prop in R as [R1 R2].
    pose proof (IHt (path_child p nm) nm acc D2 R1
                    (M nm t (or_introl (conj eq_refl eq_refl))) A) as H.
    destruct (walk (getImages_walkFn w) t (path_child p nm) nm acc) as [s1 err].
    simpl in H. subst err.
    apply IHt0; try assumption.
    intros n c Hm. apply M. right. exact Hm.
Qed.

(** X13.  When every directory and every file below the source can be
    opened, and the working directory can be named or the source is an
    absolute path, [getImages] returns no error: its result is the list of
    the records of the image entries. *)
Theorem getImages_readable (src : fpath) (t : tree) :
  lookup (root w) (resolve w src) = Ok t ->
  distinct_names t = true ->
  all_readable t = true ->
  p_abs src = true \/ getwd_ok w = true ->
  getImages w src =
    (map (record_of w)
         (filter (image_entry w) (entries_under t src (filepath_Base src))), None).
Proof.
  intros L D R A.
  assert (E : snd (getImages w src) = None).
  { unfold getImages, filepath_Walk, os_Lstat, os_Stat. rewrite L. simpl.
    pose proof (walk_readable t src (filepath_Base src) [] D R L A) as H.
    destruct (walk (getImages_walkFn w) t src (filepath_Base src) []) as [s1 err].
    simpl in H. subst err. reflexivity. }
  destruct (getImages w src) as [imgs err] eqn:G. simpl in E. subst err.
  rewrite (getImages_listed w src t imgs D L G). reflexivity.
Qed.

(** X14.  When no entry below the source directory is an image, [main]
    ends with status 0 and has made no directory, linked no file and written
    no byte. *)
Theorem main_without_images (fl : Flags) (t : tree) :
  flag_destination fl <> None ->
  lookup (root w) (resolve w (sourceFlag fl)) = Ok t ->
  is_dir t = true ->
  p_read (node_perm t) = true ->
  distinct_names t = true ->
  filter (image_entry w)
         (entries_under t (sourceFlag fl) (filepath_Base (sourceFlag fl))) = [] ->
  snd (main fl w) = 0%Z /\
  root (fst (main fl w)) = root w /\
  store (fst (main fl w)) = store w /\
  free (fst (main fl w)) = free w.
Proof.
  intros Hd L Dir R D Hnone.
  assert (Hnil : fst (getImages w (sourceFlag fl)) = []).
  { destruct (getImages w (sourceFlag fl)) as [imgs [e|]] eqn:G.
    - rewrite <- G. apply (getImages_error w _ e). rewrite G. reflexivity.
    - simpl. rewrite (getImages_listed w _ t imgs D L G).
      unfold listed. rewrite Hnone. reflexivity. }
  assert (E : exists w1, main_enumerate fl w = Some ([], w1) /\
                         root w1 = root w /\ store w1 = store w /\ free w1 = free w).
  { unfold main_enumerate, os_Open. rewrite L, R. cbn [f_info info_of fi_IsDir].
    rewrite Dir. destruct (flag_destination fl); [|congruence]. simpl.
    destruct (getImages w (sourceFlag fl)) as [imgs err]. simpl in Hnil. subst imgs.
    destruct err; eexists; (split; [reflexivity|]); auto. }
  destruct E as (w1 & E & Hr & Hs & Hf).
  rewrite (main_phases fl w w1 [] E). simpl. auto.
Qed.
End Readable.

(** * Concrete runs for the properties above *)

Lemma main_removes_nothing_witness :
  lookup (root (fst (main fl twins))) ["in"; "a"; "x.jpg"] = Ok (File Regular 4 rw) /\
  exists c', lookup (root (fst (main fl twins))) ["out"] = Ok c' /\
             same_node (Dir 7 rw FNil) c'.
Proof.
  split.
  - apply (proj1 (proj2 (main_removes_nothing fl twins))). reflexivity.
  - apply (proj1 (main_removes_nothing fl twins)). reflexivity.
Defined.

Lemma main_folders_places_witness :
  IsNotExist (err_of (os_Stat mixed (date_dir (destFlag fl) scan))) = true /\
  Forall (fun image =>
            IsNotExist (err_of (os_Stat (placed mixed [scan])
                                        (date_dir (destFlag fl) image))) = false)
         [scan] /\
  main_folders (destFlag fl) [scan] (placed mixed [scan]) = (placed mixed [scan], None).
Proof.
  split; [reflexivity|].
  apply (main_folders_places (destFlag fl) [scan] mixed (placed mixed [scan])).
  vm_compute. reflexivity.
Defined.

Lemma copyFile_other_files_untouched_witness :
  contents (fst (copyFile (placed twins [a_dated]) (path a_dated) out_x))
           (path b_dated) = Some jpeg_b.
Proof.
  rewrite (copyFile_other_files_untouched (placed twins [a_dated])
             (path a_dated) out_x (path b_dated) 6 rw).
  - vm_compute. reflexivity.
  - vm_compute. reflexivity.
  - vm_compute. discriminate.
Defined.

Lemma date_paths_injective_witness :
  date_file (destFlag fl) a_dated <> date_file (destFlag fl) Plain.y_dated /\
  date_dir (destFlag fl) a_dated <> date_dir (destFlag fl) Plain.y_dated.
Proof.
  assert (Va : valid_date (year a_dated) (month a_dated) (day a_dated))
    by (unfold valid_date; simpl; lia).
  assert (Vy : valid_date (year Plain.y_dated) (month Plain.y_dated) (day Plain.y_dated))
    by (unfold valid_date; simpl; lia).
  destruct (date_paths_injective (destFlag fl) a_dated Plain.y_dated Va Vy)
    as [Hdir Hfile].
  split.
  - intros E.
    destruct (Hfile (conj eq_refl eq_refl) (conj eq_refl eq_refl) E) as (Hy & _).
    discriminate Hy.
  - intros E. destruct (Hdir E) as (Hy & _). discriminate Hy.
Defined.

Lemma getImages_missing_source_witness :
  getImages single (abs ["nowhere"]) = ([], Some ENOENT) /\
  getImages single (abs ["in"; "x.jpg"; "deeper"]) = ([], Some ENOTDIR).
Proof.
  split; apply getImages_missing_source; reflexivity.
Defined.

Lemma copyFile_twice_witness :
  exists w2,
    copyFile (fst (copyFile (placed single [x_dated]) (path x_dated) out_x))
             (path x_dated) out_x = (w2, None) /\
    contents w2 out_x = Some jpeg_a.
Proof.
  destruct (copyFile_twice (placed single [x_dated])
              (fst (copyFile (placed single [x_dated]) (path x_dated) out_x))
              (path x_dated) out_x) as (w2 & H2 & _ & Hd & _).
  - vm_compute. reflexivity.
  - exists w2. split; [exact H2|]. rewrite Hd. vm_compute. reflexivity.
Defined.

Lemma copyFile_out_of_space_witness :
  exists data n,
    contents (placed full_disk [x_dated]) (path x_dated) = Some data /\
    n < List.length data /\
    contents (fst (copyFile (placed full_disk [x_dated]) (path x_dated) out_x)) out_x
      = Some (firstn n data) /\
    free (fst (copyFile (placed full_disk [x_dated]) (path x_dated) out_x)) = 0.
Proof.
  apply (copyFile_out_of_space (placed full_disk [x_dated])).
  vm_compute. reflexivity.
Defined.

Lemma copyFile_into_directory_witness :
  exists w',
    copyFile (placed single [x_dated]) (path x_dated)
             (path_child (abs ["out"; "2021"; "06"; "15"]) "x.jpg") = (w', None) /\
    contents w' (path_child (abs ["out"; "2021"; "06"; "15"]) "x.jpg") = Some jpeg_a.
Proof.
  apply (copyFile_into_directory (placed single [x_dated]) (path x_dated)
           (abs ["out"; "2021"; "06"; "15"]) "x.jpg" 3 7 rw perm_0755 FNil).
  - vm_compute. reflexivity.
  - reflexivity.
  - vm_compute. reflexivity.
  - reflexivity.
  - reflexivity.
  - vm_compute. lia.
Defined.

Lemma getImages_readable_witness :
  getImages twins (abs ["in"]) =
    ([mkImage "x.jpg" (abs ["in"; "a"; "x.jpg"]) 0 0 0;
      mkImage "x.jpg" (abs ["in"; "b"; "x.jpg"]) 0 0 0], None).
Proof.
  rewrite (getImages_readable twins (abs ["in"])
             (Dir 2 rw
                (FCons "a" (Dir 3 rw (FCons "x.jpg" (File Regular 4 rw) FNil))
                (FCons "b" (Dir 5 rw (FCons "x.jpg" (File Regular 6 rw) FNil))
                 FNil)))).
  - vm_compute. reflexivity.
  - reflexivity.
  - reflexivity.
  - reflexivity.
  - left. reflexivity.
Defined.

Lemma main_without_images_witness :
  snd (main fl Plain.world) = 0%Z /\
  root (fst (main fl Plain.world)) = root Plain.world /\
  store (fst (main fl Plain.world)) = store Plain.world /\
  free (fst (main fl Plain.world)) = free Plain.world.
Proof.
  apply (main_without_images Plain.world fl
           (Dir 2 rw
              (FCons "notes.jpg" (File Regular 3 rw)
              (FCons "sub" (Dir 4 rw (FCons "readme" (File Regular 5 rw) FNil))
               FNil)))).
  - discriminate.
  - reflexivity.
  - reflexivity.
  - reflexivity.
  - reflexivity.
  - vm_compute. reflexivity.
Defined.

Section Unguarded.
Context {X : Extern}.

(** X15.  [copyFileContents] has no guard of its own: called on two paths
    to one regular file that can be read and written, it returns no error
    and leaves the file empty. *)
Theorem copyFileContents_same_file_empties
        (w : World) (src dst : fpath) (i : nat) (pi pj : perm) :
  lookup (root w) (resolve w src) = Ok (File Regular i pi) ->
  lookup (root w) (resolve w dst) = Ok (File Regular i pj) ->
  p_read pi = true -> p_write pj = true ->
  snd (copyFileContents w src dst) = None /\
  contents (fst (copyFileContents w src dst)) src = Some [] /\
  contents (fst (copyFileContents w src dst)) dst = Some [].
Proof.
  intros Ls Ld R W.
  unfold copyFileContents, os_Open, os_Create. rewrite Ls, Ld. simpl.
  rewrite R, W. unfold io_Copy, file_data, f_ino. simpl.
  rewrite upd_same. simpl. unfold file_Sync. simpl.
  unfold contents, resolve. simpl. fold (resolve w src). fold (resolve w dst).
  rewrite Ls, Ld, !upd_same. auto.
Qed.
End Unguarded.

Lemma copyFileContents_same_file_empties_witness :
  contents single (abs ["in"; "x.jpg"]) = Some jpeg_a /\
  contents (fst (copyFileContents single (abs ["in"; "x.jpg"])
                                  (mkPath false ["in"; "x.jpg"])))
           (abs ["in"; "x.jpg"]) = Some [].
Proof.
  split; [reflexivity|].
  apply (copyFileContents_same_file_empties single (abs ["in"; "x.jpg"])
           (mkPath false ["in"; "x.jpg"]) 3 rw rw); reflexivity.
Defined.

(** * An undated record in a run of [main] *)

Lemma grows_is_directory (w w' : World) (p : fpath) :
  grows w w' -> is_directory w p = true -> is_directory w' p = true.
Proof.
  intros (C & _ & K & _). unfold is_directory, resolve. rewrite C.
  fold (resolve w p).
  destruct (lookup (root w) (resolve w p)) as [c|e] eqn:L; [|discriminate].
  destruct (K _ _ L) as (c' & Lc & (D & _)). rewrite Lc, D. auto.
Qed.

Section Undated.
Context {X : Extern}.

(** C3, as amended.  Take a run of [main] that reaches the enumeration, and
    an enumerated image on which [getDate] fails.  Year, month and day of
    its record are zero; the date loop keeps the record as it is, between
    the records before and after it, and prints nothing.  The record then
    goes through the two loops like any other, with
    [<destination>/0000/00/00] for its directory.  Either the folder loop
    ends the run with status 1; or it places the whole batch, after which the
    directory is not missing (and is a directory, unless something else was
    in its way when the turn of the record came), the copier is called on the
    path of the record and on [<destination>/0000/00/00/<name>] in the world
    that the copies before it have left, an error of that call is printed,
    the copies after it follow, and the status is 0. *)
Theorem C3_undated_record_in_run
        (fl : Flags) (w : World) (file : os_File)
        (pre post : list Image) (im : Image) (e : error) :
  flag_destination fl <> None ->
  os_Open w (sourceFlag fl) = Ok file ->
  fi_IsDir (f_info file) = true ->
  fst (getImages w (sourceFlag fl)) = pre ++ im :: post ->
  snd (getDate w im) = Some e ->
  entry_name (name im) ->
  let dest := destFlag fl in
  let dir := mkPath (p_abs dest) (p_elems dest ++ ["0000"; "00"; "00"]) in
  let dst := mkPath (p_abs dest) (p_elems dest ++ ["0000"; "00"; "00"; name im]) in
  let before := main_dates w pre in
  let after := main_dates w post in
  undated im /\
  main_enumerate fl w = Some (before ++ im :: after, w) /\
  match main_folders dest (before ++ im :: after) w with
  | (w2, Some _) => main fl w = (w2, 1%Z)
  | (w2, None) =>
      let turn := fst (main_folders dest before w) in
      let w3 := main_copy dest before w2 in
      IsNotExist (err_of (os_Stat w2 dir)) = false /\
      (IsNotExist (err_of (os_Stat turn dir)) = true \/ is_directory turn dir = true ->
       is_directory w2 dir = true) /\
      main fl w =
        (main_copy dest after
           (match snd (copyFile w3 (path im) dst) with
            | Some e' => Fprint_Stderr (fst (copyFile w3 (path im) dst))
                                       (MsgCopy (path im) dst e')
            | None => fst (copyFile w3 (path im) dst)
            end), 0%Z)
  end.
Proof.
  intros Hd Ho Hdir G Hfail Hn dest dir dst before after.
  assert (U : undated im).
  { pose proof (getImages_undated w (sourceFlag fl)) as F. rewrite G in F.
    apply Forall_app in F as [_ F]. inversion F. assumption. }
  assert (Jd : filepath_Join dest (Sprintf_date (year im) (month im) (day im)) = dir).
  { destruct U as (-> & -> & ->). reflexivity. }
  assert (Jn : filepath_Join dest
                 (Sprintf_date_name (year im) (month im) (day im) (name im)) = dst).
  { destruct U as (-> & -> & ->).
    apply (Join_Sprintf_date_name dest 0 0 0 (name im));
      try (split; reflexivity). exact Hn. }
  assert (E : main_enumerate fl w = Some (before ++ im :: after, w)).
  { unfold main_enumerate. rewrite Ho, Hdir.
    destruct (flag_destination fl); [|congruence]. simpl.
    destruct (getImages w (sourceFlag fl)) as [imgs [e'|]] eqn:Gi.
    - pose proof (getImages_error w (sourceFlag fl) e') as Hnil.
      rewrite Gi in Hnil. simpl in Hnil, G. rewrite (Hnil eq_refl) in G.
      destruct pre; discriminate.
    - simpl in G. subst imgs. rewrite main_dates_app. simpl.
      pose proof (getDate_error w im e Hfail) as Hsame.
      destruct (getDate w im) as [im' [e'|]]; simpl in *; subst; reflexivity. }
  split; [exact U|]. split; [exact E|].
  rewrite (main_phases fl w w _ E). fold dest.
  pose proof (main_folders_grows dest (im :: after)
                                 (fst (main_folders dest before w))) as Gr.
  rewrite main_folders_app in *.
  destruct (main_folders dest before w) as [wt [c|]] eqn:Fb.
  - rewrite (main_folders_status _ _ _ _ _ Fb). reflexivity.
  - simpl in Gr. simpl. rewrite Jd in *.
    destruct (IsNotExist (err_of (os_Stat wt dir))) eqn:St.
    + unfold os_MkdirAll in *.
      destruct (mkdir_all (root wt) (resolve wt dir) (S (max_ino (root wt))))
        as [t' err] eqn:M.
      destruct err as [e'|]; [reflexivity|].
      pose proof (main_folders_grows dest after (set_root wt t')) as Ga.
      destruct (main_folders dest after (set_root wt t')) as [w2 [c|]] eqn:Fa.
      * rewrite (main_folders_status _ _ _ _ _ Fa). reflexivity.
      * simpl in Ga.
        assert (Dt : is_directory (set_root wt t') dir = true).
        { destruct (mkdir_all_dir _ _ _ _ M) as (c & Lc & Dc).
          unfold is_directory.
          change (resolve (set_root wt t') dir) with (resolve wt dir).
          simpl. rewrite Lc. exact Dc. }
        pose proof (grows_is_directory _ _ dir Ga Dt) as D2.
        split; [|split].
        -- apply stat_not_missing. unfold is_directory in D2.
           destruct (lookup (root w2) (resolve w2 dir)); [discriminate|discriminate].
        -- intros _. exact D2.
        -- rewrite main_copy_app. simpl. rewrite Jn.
           destruct (copyFile (main_copy dest before w2) (path im) dst)
             as [w4 [e'|]]; reflexivity.
    + pose proof (main_folders_grows dest after wt) as Ga.
      destruct (main_folders dest after wt) as [w2 [c|]] eqn:Fa.
      * rewrite (main_folders_status _ _ _ _ _ Fa). reflexivity.
      * simpl in Ga. split; [|split].
        -- exact (grows_not_missing wt w2 dir Ga St).
        -- intros [H | H]; [discriminate|].
           exact (grows_is_directory _ _ dir Ga H).
        -- rewrite main_copy_app. simpl. rewrite Jn.
           destruct (copyFile (main_copy dest before w2) (path im) dst)
             as [w4 [e'|]]; reflexivity.
Qed.
End Undated.

(** C3, as stated, fails.  In [sealed] the JPEG [/in/scan.txt] is
    enumerated and has no date, and [/out] is read-only: the run ends with
    status 1, and there is neither a directory [/out/0000/00/00] nor a copy.
    In [Blocked.world] the file [/out/0000] is in the way: no directory is
    made, the copy fails, and the status is 0. *)
Lemma C3_counterexample :
  (fst (getImages sealed (sourceFlag fl)) = [scan] /\
   getDate sealed scan = (scan, Some (ErrExif "no exif block")) /\
   snd (main fl sealed) = 1%Z /\
   is_directory (fst (main fl sealed)) (abs ["out"; "0000"; "00"; "00"]) = false /\
   is_directory (fst (main fl sealed)) (abs ["out"; "0000"]) = false /\
   contents (fst (main fl sealed)) (abs ["out"; "0000"; "00"; "00"; "scan.txt"]) = None) /\
  (fst (getImages Blocked.world (sourceFlag fl)) = [scan] /\
   getDate Blocked.world scan = (scan, Some (ErrExif "no exif block")) /\
   main fl Blocked.world =
     (Fprint_Stderr Blocked.world
        (MsgCopy (path scan) (abs ["out"; "0000"; "00"; "00"; "scan.txt"]) ENOTDIR),
      0%Z) /\
   is_directory (fst (main fl Blocked.world)) (abs ["out"; "0000"; "00"; "00"]) = false).
Proof. split; repeat split; run. Qed.

Lemma C3_undated_record_in_run_witness :
  undated scan /\
  is_directory (placed mixed [scan]) (abs ["out"; "0000"; "00"; "00"]) = true /\
  contents (fst (main fl mixed)) (abs ["out"; "0000"; "00"; "00"; "scan.txt"])
    = Some jpeg_plain.
Proof.
  destruct (C3_undated_record_in_run fl mixed
              (mkFile (info_of "in" (Dir 2 rw FNil))) [] [] scan
              (ErrExif "no exif block")) as (Hu & _ & Hrun).
  - discriminate.
  - vm_compute. reflexivity.
  - reflexivity.
  - vm_compute. reflexivity.
  - vm_compute. reflexivity.
  - split; reflexivity.
  - cbv zeta in Hrun.
    assert (F : main_folders (destFlag fl) (main_dates mixed [] ++ scan :: main_dates mixed [])
                             mixed = (placed mixed [scan], None))
      by (vm_compute; reflexivity).
    rewrite F in Hrun. destruct Hrun as (_ & Hdir & Hmain).
    split; [exact Hu|]. split.
    + apply Hdir. left. vm_compute. reflexivity.
    + rewrite Hmain. vm_compute. reflexivity.
Defined.
